(** * learntools: the lesson preprocessor and the offline geocoder

    A shallow embedding of
      - notebooks/nb_utils/lesson_preprocessor.py (class LearnLessonPreprocessor)
      - learntools/geospatial/tools.py            (class Nominatim)
    and the properties of their behaviour.

    Conventions.
      - A Python [str] is a [string]; every character is a code point
        below 256.
      - Cells (NotebookNode objects) are mutable and shared: they live in
        a store and are passed around by reference.
      - A Python computation is a function from the store to the store
        and either a value or a raised exception. *)

From Stdlib Require Import ZArith Ascii String DecimalString.
From stdpp Require Import base option list gmap strings.

Local Open Scope string_scope.

(** ** Python text primitives *)

Module PyStr.

Definition NL : string := String (ascii_of_nat 10) EmptyString.

(** [str.isspace] on one character, restricted to code points < 256:
    TAB LF VT FF CR, FS GS RS US, SPACE, NEL and NBSP. *)
Definition is_space (c : ascii) : bool :=
  let n := nat_of_ascii c in
  (Nat.leb 9 n && Nat.leb n 13) || (Nat.leb 28 n && Nat.leb n 32)
  || Nat.eqb n 133 || Nat.eqb n 160.

Fixpoint lstrip (s : string) : string :=
  match s with
  | String c r => if is_space c then lstrip r else s
  | EmptyString => EmptyString
  end.

(** [rstrip] keeps a character when it is not a space or when something
    is kept after it. *)
Fixpoint rstrip (s : string) : string :=
  match s with
  | String c r =>
      match rstrip r with
      | EmptyString => if is_space c then EmptyString else String c EmptyString
      | r' => String c r'
      end
  | EmptyString => EmptyString
  end.

Definition strip (s : string) : string := rstrip (lstrip s).

(** [s[n:]] and [s[:n]] for a natural number [n]. *)
Fixpoint drop (n : nat) (s : string) : string :=
  match n, s with
  | S k, String _ r => drop k r
  | _, _ => s
  end.

Fixpoint take (n : nat) (s : string) : string :=
  match n, s with
  | S k, String c r => String c (take k r)
  | _, _ => EmptyString
  end.

(** [s[i:j]] for natural numbers [i], [j]. *)
Definition slice (s : string) (i j : nat) : string := take (j - i) (drop i s).

Fixpoint last_char (s : string) : option ascii :=
  match s with
  | EmptyString => None
  | String c EmptyString => Some c
  | String _ r => last_char r
  end.

(** [s[:-1]] *)
Fixpoint init (s : string) : string :=
  match s with
  | EmptyString => EmptyString
  | String _ EmptyString => EmptyString
  | String c r => String c (init r)
  end.

(** [s.endswith(c)] for a one-character [c]. *)
Definition endswith_char (s : string) (c : ascii) : bool :=
  match last_char s with
  | Some d => Ascii.eqb d c
  | None => false
  end.

(** [s.split(c)] for a one-character separator: never empty. *)
Fixpoint split (c : ascii) (s : string) : list string :=
  match s with
  | EmptyString => [EmptyString]
  | String d r =>
      if Ascii.eqb d c then EmptyString :: split c r
      else match split c r with
           | p :: ps => String d p :: ps
           | [] => [String d EmptyString]
           end
  end.

Fixpoint has_char (c : ascii) (s : string) : bool :=
  match s with
  | EmptyString => false
  | String d r => Ascii.eqb d c || has_char c r
  end.

(** [x in s] for strings, as a proposition. *)
Definition contains (s x : string) : Prop :=
  exists pre post, s = pre ++ x ++ post.

(** [str(n)] for a natural number. *)
Definition of_nat (n : nat) : string := NilZero.string_of_uint (Nat.to_uint n).

(** *** [int(s)]: optional surrounding blanks, an optional sign, decimal
    digits, single underscores allowed between digits. *)
Definition digit_of (c : ascii) : option Z :=
  let n := nat_of_ascii c in
  if Nat.leb 48 n && Nat.leb n 57 then Some (Z.of_nat (n - 48)) else None.

(** [digits acc prev s]: [prev] tells whether the previous character was a
    digit (an underscore needs a digit on both sides). *)
Fixpoint digits (acc : Z) (prev : bool) (s : string) : option Z :=
  match s with
  | EmptyString => if prev then Some acc else None
  | String c r =>
      match digit_of c with
      | Some d => digits (10 * acc + d)%Z true r
      | None =>
          if Ascii.eqb c "_" && prev then
            match r with
            | String c' _ =>
                if is_Some_dec (digit_of c') then digits acc false r else None
            | EmptyString => None
            end
          else None
      end
  end.

(** The blanks [int()] skips around the number: the ASCII ones TAB LF VT
    FF CR and SPACE, and NEL and NBSP, which it first turns into spaces.
    The separators FS GS RS US, blanks for [str.strip], are not skipped. *)
Definition is_int_space (c : ascii) : bool :=
  let n := nat_of_ascii c in
  (Nat.leb 9 n && Nat.leb n 13) || Nat.eqb n 32
  || Nat.eqb n 133 || Nat.eqb n 160.

Fixpoint int_lstrip (s : string) : string :=
  match s with
  | String c r => if is_int_space c then int_lstrip r else s
  | EmptyString => EmptyString
  end.

Fixpoint int_rstrip (s : string) : string :=
  match s with
  | String c r =>
      match int_rstrip r with
      | EmptyString =>
          if is_int_space c then EmptyString else String c EmptyString
      | r' => String c r'
      end
  | EmptyString => EmptyString
  end.

Fixpoint count_digits (s : string) : nat :=
  match s with
  | EmptyString => 0
  | String c r =>
      (if is_Some_dec (digit_of c) then 1 else 0) + count_digits r
  end.

(** The interpreter's default limit on the digits of a decimal text
    (CPython 3.11 and later): beyond it [int()] raises [ValueError]. *)
Definition max_str_digits : nat := 4300.

Definition int_body (r : string) : option Z :=
  if Nat.leb (count_digits r) max_str_digits then digits 0 false r
  else None.

Definition int (s : string) : option Z :=
  match int_rstrip (int_lstrip s) with
  | String "-" r => Z.opp <$> int_body r
  | String "+" r => int_body r
  | r => int_body r
  end.

End PyStr.

(** ** The macro pattern [#\$([^$]+)\$] *)

Module Re.

(** The longest run of characters other than [$], when a [$] follows it:
    the run and the text after that [$]. *)
Fixpoint until_dollar (s : string) : option (string * string) :=
  match s with
  | EmptyString => None
  | String c r =>
      if Ascii.eqb c "$" then Some (EmptyString, r)
      else match until_dollar r with
           | Some (g, t) => Some (String c g, t)
           | None => None
           end
  end.

(** The pattern anchored at the start of [s]: group 1 of the match. The
    match itself is [#$], the group, [$]: three characters longer than the
    group. *)
Definition match_at (s : string) : option string :=
  match s with
  | String c1 (String c2 r) =>
      if Ascii.eqb c1 "#" && Ascii.eqb c2 "$" then
        match until_dollar r with
        | Some (String c g, _) => Some (String c g)
        | _ => None
        end
      else None
  | _ => None
  end.

(** The text of a reference with group [g]. *)
Definition wrap (g : string) : string := "#$" ++ g ++ "$".

(** A match object: its span and its group 1. *)
Record Match := mkMatch { m_start : nat; m_end : nat; m_group : string }.

(** [re.finditer]: the pattern is tried at every position from the left;
    after a match the scan resumes at its end. [skip] counts the characters
    still covered by the previous match, [pos] is the index of the head of
    [s] in the whole text. *)
Fixpoint finditer_from (skip pos : nat) (s : string) : list Match :=
  match s with
  | EmptyString => []
  | String _ r =>
      match skip with
      | S k => finditer_from k (S pos) r
      | O =>
          match match_at s with
          | Some g =>
              mkMatch pos (pos + (String.length g + 3)) g
                :: finditer_from (String.length g + 2) (S pos) r
          | None => finditer_from 0 (S pos) r
          end
      end
  end.

Definition finditer (s : string) : list Match := finditer_from 0 0 s.

(** The text between the matches, as [process_cell] cuts it with [i]
    starting at [i0]: [src[i:a]] for each match, and [src[i:]] after the
    last. *)
Fixpoint literals (src : string) (i0 : nat) (ms : list Match)
  : list string :=
  match ms with
  | [] => []
  | m :: r => PyStr.slice src i0 (m_start m) :: literals src (m_end m) r
  end.

Fixpoint tail_after (src : string) (i0 : nat) (ms : list Match) : string :=
  match ms with
  | [] => PyStr.drop i0 src
  | m :: r => tail_after src (m_end m) r
  end.

(** The reconstruction as the specification words it: the literal text
    before each match, then what stands for the match, for every match in
    order, then the tail. *)
Fixpoint interleave (lits mids : list string) (tail : string) : string :=
  match lits, mids with
  | l :: ls, m :: ms => l ++ m ++ interleave ls ms tail
  | _, _ => tail
  end.

(** The spans of a list of matches lie in order from [i0] on and cover
    the text of their references. *)
Fixpoint well_spanned (src : string) (i0 : nat) (ms : list Match) : Prop :=
  match ms with
  | [] => True
  | m :: r =>
      i0 <= m_start m /\ m_start m <= m_end m
      /\ PyStr.slice src (m_start m) (m_end m) = wrap (m_group m)
      /\ well_spanned src (m_end m) r
  end.

End Re.

(** ** Values, cells, the store *)

(** The Python values the preprocessor handles. [VObj] stands for any other
    object (it is truthy and is neither a string nor callable). *)
Inductive PyVal :=
| VNone
| VBool (b : bool)
| VInt (z : Z)
| VStr (s : string)
| VList (l : list string)
| VObj.

(** [bool(v)] *)
Definition truthy (v : PyVal) : bool :=
  match v with
  | VNone => false
  | VBool b => b
  | VInt z => negb (Z.eqb z 0)
  | VStr s => negb (String.eqb s "")
  | VList l => match l with [] => false | _ => true end
  | VObj => true
  end.

(** A cell is a NotebookNode, a dict: each key may be missing. *)
Record Cell := mkCell {
  cell_type : option string;
  metadata : option (gmap string PyVal);
  source : option PyVal;
  execution_count : option PyVal;
  outputs : option PyVal
}.

(** A markdown or code cell as nbformat reads it from a file. *)
Definition text_cell (ty src : string) : Cell :=
  mkCell (Some ty) (Some ∅) (Some (VStr src)) None None.

Definition loc := nat.

(** The cells allocated so far, and the document's [nb.cells]. *)
Record Store := mkStore {
  heap : list Cell;
  nb_cells : list loc
}.

Inductive exn :=
| UnrecognizedMacroException (msg : string)
| NameError (name : string)
| AttributeError (attr : string)
| KeyError (key : string)
| TypeError
| ValueError
| IndexError
| RecursionError
| CalledProcessError
| OtherError (what : string)
| DanglingRef.

Inductive Res (A : Type) :=
| Ok (a : A)
| Raise (e : exn).
Arguments Ok {A} a.
Arguments Raise {A} e.

Definition res_bind {A B} (r : Res A) (k : A -> Res B) : Res B :=
  match r with
  | Ok a => k a
  | Raise e => Raise e
  end.

(** A computation: the store is threaded through, also when it raises (a
    mutation made before the exception stays). *)
Definition M (A : Type) : Type := Store -> Store * Res A.

Definition ret {A} (a : A) : M A := fun st => (st, Ok a).
Definition raise {A} (e : exn) : M A := fun st => (st, Raise e).
Definition bind {A B} (m : M A) (k : A -> M B) : M B :=
  fun st =>
    match m st with
    | (st', Ok a) => k a st'
    | (st', Raise e) => (st', Raise e)
    end.
(** [try: m except Exception as e: h e] *)
Definition catch {A} (m : M A) (h : exn -> M A) : M A :=
  fun st =>
    match m st with
    | (st', Ok a) => (st', Ok a)
    | (st', Raise e) => h e st'
    end.
Definition lift {A} (r : Res A) : M A := fun st => (st, r).

Notation "x <- c1 ;; c2" := (bind c1 (fun x => c2))
  (at level 100, c1 at next level, right associativity).
Notation "c1 ;;; c2" := (bind c1 (fun _ => c2))
  (at level 100, right associativity).

Definition get_cell (c : loc) : M Cell :=
  fun st =>
    match heap st !! c with
    | Some v => (st, Ok v)
    | None => (st, Raise DanglingRef)
    end.

Definition put_cell (c : loc) (v : Cell) : M unit :=
  fun st => (mkStore (<[c := v]> (heap st)) (nb_cells st), Ok tt).

Definition alloc (v : Cell) : M loc :=
  fun st => (mkStore (heap st ++ [v]) (nb_cells st), Ok (length (heap st))).

Definition get_nb_cells : M (list loc) := fun st => (st, Ok (nb_cells st)).
Definition set_nb_cells (l : list loc) : M unit :=
  fun st => (mkStore (heap st) l, Ok tt).

(** [cell['source']] *)
Definition get_source (c : loc) : M PyVal :=
  v <- get_cell c ;;
  match source v with
  | Some s => ret s
  | None => raise (KeyError "source")
  end.

(** [cell['source'] = s] *)
Definition with_source (v : Cell) (s : PyVal) : Cell :=
  mkCell (cell_type v) (metadata v) (Some s) (execution_count v) (outputs v).

Definition set_source (c : loc) (s : PyVal) : M unit :=
  v <- get_cell c ;;
  put_cell c (with_source v s).

(** [cell['metadata'][key] = True] *)
Definition set_metadata_flag (c : loc) (key : string) : M unit :=
  v <- get_cell c ;;
  match metadata v with
  | Some md =>
      put_cell c (mkCell (cell_type v) (Some (<[key := VBool true]> md))
                         (source v) (execution_count v) (outputs v))
  | None => raise (KeyError "metadata")
  end.

(** The cell at [c] holds a text whose stripped form is the truncation
    token. *)
Definition is_sentinel (st : Store) (c : loc) : Prop :=
  exists v t, heap st !! c = Some v /\ source v = Some (VStr t)
              /\ PyStr.strip t = "#%%RM_BELOW%%".

(** ** Tracks and lessons *)

Record Tutorial := mkTutorial { url : string }.
Record Exercise := mkExercise { forking_url : string }.

(** Modelled from the spec: the classes of the track metadata are declared
    outside the two source files. A lesson has a [topic], may have a
    [tutorial] (with a [url]) and an [exercise] (with a [forking_url]), a
    [last] flag and a [next] lesson, absent on the last one. *)
#[local] Unset Elimination Schemes.
Inductive Lesson := mkLesson {
  topic : string;
  tutorial : option Tutorial;
  exercise : option Exercise;
  last : bool;
  next : option Lesson
}.
#[local] Set Elimination Schemes.

Record Track := mkTrack {
  course_name : string;
  course_url : string;
  lessons : list Lesson
}.

(** [l[i]] for a Python list and an integer: a negative index counts from
    the end. *)
Definition py_index {A} (l : list A) (i : Z) : Res A :=
  let n := Z.of_nat (length l) in
  let j := if (i <? 0)%Z then (n + i)%Z else i in
  if (0 <=? j)%Z && (j <? n)%Z then
    match l !! Z.to_nat j with
    | Some x => Ok x
    | None => Raise IndexError
    end
  else Raise IndexError.

(** [d.get(key)] and [d.get(key, False)] agree on truthiness. *)
Definition cfg_truthy (cfg : gmap string PyVal) (key : string) : bool :=
  match cfg !! key with
  | Some v => truthy v
  | None => false
  end.

(** ** The preprocessor *)

Module LessonPreprocessor.

(** The attributes [preprocess] binds on [self] for one pass. *)
Record Self := mkSelf {
  track : Track;
  lesson : option Lesson;
  cfg : gmap string PyVal
}.

Record NbMeta := mkNbMeta { type : string }.

(** The [resources] mapping handed to [preprocess]. *)
Record Resources := mkResources {
  track_meta : Track;
  res_lesson : option Lesson;
  track_cfg : gmap string PyVal;
  nb_meta : NbMeta
}.

(** Lines 30-36: [self.track], [self.lesson] and [self.cfg]. *)
Definition bind_self (resources : Resources) : Self :=
  mkSelf (track_meta resources) (res_lesson resources) (track_cfg resources).

(** Attribute access on objects that may be [None] or lack the attribute. *)
Definition the_lesson (self : Self) (attr : string) : Res Lesson :=
  match lesson self with
  | Some l => Ok l
  | None => Raise (AttributeError attr)
  end.

Definition tutorial_url (l : Lesson) : Res string :=
  match tutorial l with
  | Some t => Ok (url t)
  | None => Raise (AttributeError "tutorial")
  end.

Definition exercise_forking_url (l : Lesson) : Res string :=
  match exercise l with
  | Some e => Ok (forking_url e)
  | None => Raise (AttributeError "exercise")
  end.

Definition next_lesson_of (l : Lesson) : Res Lesson :=
  match next l with
  | Some n => Ok n
  | None => Raise (AttributeError "next")
  end.

(** [self.track.lessons[int(lesson_num) - 1]] *)
Definition indexed_lesson (self : Self) (lesson_num : string) : Res Lesson :=
  match PyStr.int lesson_num with
  | Some n => py_index (lessons (track self)) (n - 1)
  | None => Raise ValueError
  end.

(** *** The macros (lines 181-280). Each returns the value of the Python
    method; the [cell] keyword argument is shown only where it is used. *)

Definition EXERCISE_FORKING_URL (self : Self) (lesson_num : option string)
  : Res PyVal :=
  match lesson_num with
  | None =>
      res_bind (the_lesson self "exercise") (fun l =>
      res_bind (exercise_forking_url l) (fun u => Ok (VStr u)))
  | Some n =>
      res_bind (indexed_lesson self n) (fun l =>
      res_bind (exercise_forking_url l) (fun u => Ok (VStr u)))
  end.

Definition HIDE_INPUT (cell : loc) : M PyVal :=
  set_metadata_flag cell "_kg_hide-input" ;;; ret VNone.

Definition HIDE_OUTPUT (cell : loc) : M PyVal :=
  set_metadata_flag cell "_kg_hide-output" ;;; ret VNone.

Definition HIDE (cell : loc) : M PyVal :=
  HIDE_INPUT cell ;;; HIDE_OUTPUT cell ;;; ret VNone.

Definition YOURTURN (self : Self) : Res PyVal :=
  res_bind (the_lesson self "exercise") (fun l =>
  res_bind (exercise_forking_url l) (fun u =>
  Ok (VStr ("# Your Turn" ++ PyStr.NL ++ PyStr.NL
            ++ "Try the [hands-on exercise](" ++ u ++ ") with " ++ topic l)))).

Definition TUT_BETA_NOTE (jot_id : string) : Res PyVal :=
  let form_url := "https://form.jotform.com/" ++ jot_id in
  Ok (VStr ("### P.S..." ++ PyStr.NL ++ PyStr.NL
    ++ "This course is still in beta, so I'd love to get your feedback. If you have a moment to [fill out a super-short survey about this lesson]("
    ++ form_url
    ++ "), I'd greatly appreciate it. You can also leave public feedback in the comments below, or on the [Learn Forum](https://www.kaggle.com/learn-forum)."
    ++ PyStr.NL)).

Definition EXERCISE_SETUP : Res PyVal := Ok VNone.

Definition TUTORIAL_URL (self : Self) (lesson_num : option string)
  : Res PyVal :=
  res_bind
    match lesson_num with
    | None => the_lesson self "tutorial"
    | Some n => indexed_lesson self n
    end
    (fun l => res_bind (tutorial_url l) (fun u => Ok (VStr u))).

Definition EXERCISE_URL (self : Self) (lesson_num : string) : Res PyVal :=
  res_bind (indexed_lesson self lesson_num) (fun l =>
  res_bind (exercise_forking_url l) (fun u => Ok (VStr u))).

Definition EXERCISE_PREAMBLE (self : Self) : Res PyVal :=
  res_bind (the_lesson self "topic") (fun l =>
  res_bind (tutorial_url l) (fun u =>
  Ok (VStr ("These exercises accompany the tutorial on [" ++ topic l
            ++ "](" ++ u ++ ").")))).

Definition KEEP_GOING (self : Self) : Res PyVal :=
  if cfg_truthy (cfg self) "daily" then
    Ok (VStr (PyStr.NL ++ "**You'll get another email tomorrow so you can keep learning. See you then.**"))
  else
    res_bind (the_lesson self "next") (fun l =>
    res_bind (next_lesson_of l) (fun next_lesson =>
    res_bind
      match tutorial next_lesson with
      | Some t => Ok (url t)
      | None => exercise_forking_url next_lesson
      end
      (fun next_url =>
    Ok (VStr ("# Keep Going" ++ PyStr.NL ++ PyStr.NL
              ++ "You are ready for **[" ++ topic next_lesson ++ "]("
              ++ next_url ++ ").**" ++ PyStr.NL))))).

Definition END_OF_EMB_EXERCISE (self : Self) (jot_id : string) : Res PyVal :=
  let form_url := "https://form.jotform.com/" ++ jot_id in
  let txt := PyStr.NL ++ "---" ++ PyStr.NL
    ++ "That's the end of this exercise. How'd it go? If you have any questions, be sure to post them on the [forums](https://www.kaggle.com/learn-forum)."
    ++ PyStr.NL ++ PyStr.NL
    ++ "**P.S.** This course is still in beta, so I'd love to get your feedback. If you have a moment to [fill out a super-short survey about this exercise]("
    ++ form_url ++ "), I'd greatly appreciate it." ++ PyStr.NL in
  res_bind (the_lesson self "last") (fun l =>
  if negb (last l) then
    res_bind (next_lesson_of l) (fun next_lesson =>
    res_bind (tutorial_url next_lesson) (fun u =>
    let kg := PyStr.NL ++ "# Keep going" ++ PyStr.NL ++ PyStr.NL
      ++ "When you're ready to continue, [click here](" ++ u
      ++ ") to continue on to the next tutorial on " ++ topic next_lesson
      ++ "." ++ PyStr.NL in
    Ok (VStr (txt ++ kg))))
  else Ok (VStr txt)).

(** *** What [getattr(self, name, None)] can find *)

Inductive Builtin :=
| B_EXERCISE_FORKING_URL | B_HIDE_INPUT | B_HIDE_OUTPUT | B_HIDE | B_YOURTURN
| B_TUT_BETA_NOTE | B_EXERCISE_SETUP | B_TUTORIAL_URL | B_EXERCISE_URL
| B_EXERCISE_PREAMBLE | B_KEEP_GOING | B_END_OF_EMB_EXERCISE.

(** The other methods the class defines. *)
Inductive Method :=
| Meth_preprocess | Meth_add_header_and_footer | Meth_pip_install_lt_hack
| Meth_pip_install_hack | Meth_pip_install_cell | Meth_make_cell
| Meth_process_cell | Meth_expand_macro.

Inductive Attr :=
| A_macro (b : Builtin)
| A_method (m : Method)
| A_data                                   (* [track], [lesson], [cfg] *)
| A_inherited (call : list string -> loc -> M PyVal).

Definition builtin_names : list (string * Builtin) :=
  [ ("EXERCISE_FORKING_URL", B_EXERCISE_FORKING_URL);
    ("HIDE_INPUT", B_HIDE_INPUT);
    ("HIDE_OUTPUT", B_HIDE_OUTPUT);
    ("HIDE", B_HIDE);
    ("YOURTURN", B_YOURTURN);
    ("TUT_BETA_NOTE", B_TUT_BETA_NOTE);
    ("EXERCISE_SETUP", B_EXERCISE_SETUP);
    ("TUTORIAL_URL", B_TUTORIAL_URL);
    ("EXERCISE_URL", B_EXERCISE_URL);
    ("EXERCISE_PREAMBLE", B_EXERCISE_PREAMBLE);
    ("KEEP_GOING", B_KEEP_GOING);
    ("END_OF_EMB_EXERCISE", B_END_OF_EMB_EXERCISE) ].

Definition method_names : list (string * Method) :=
  [ ("preprocess", Meth_preprocess);
    ("add_header_and_footer", Meth_add_header_and_footer);
    ("pip_install_lt_hack", Meth_pip_install_lt_hack);
    ("pip_install_hack", Meth_pip_install_hack);
    ("pip_install_cell", Meth_pip_install_cell);
    ("make_cell", Meth_make_cell);
    ("process_cell", Meth_process_cell);
    ("expand_macro", Meth_expand_macro) ].

Fixpoint assoc {A} (k : string) (l : list (string * A)) : option A :=
  match l with
  | [] => None
  | (k', v) :: r => if String.eqb k k' then Some v else assoc k r
  end.

Section Pass.

(** The module-level flag [IGNORE_UNKNOWN_MACROS]; the source sets it to 0. *)
Variable IGNORE_UNKNOWN_MACROS : bool.

(** The attributes [self] inherits from nbconvert's [Preprocessor], which
    is not part of the repository: for a name that exists there (with a
    value other than [None]), what calling it with the positional
    arguments and [cell=cell] does. *)
Variable inherited : string -> option (list string -> loc -> M PyVal).

(** [MacroProcessor(track_cfg).process_cell], from a module outside the
    two source files: it returns a cell or [None]. *)
Variable macroer_process_cell : gmap string PyVal -> loc -> M (option loc).

(** The outcome of the [git symbolic-ref] subprocess. *)
Variable git_branch : Res string.

(** Lines 63-71, [add_header_and_footer]. Line 67 reads
    [header_content = course info + ...], which is no Python statement,
    so the method has no body to embed and what a call to it does is left
    open: any computation that ends with a list of cells or an exception.
    No statement of its text assigns to [cells] or to the document. *)
Variable add_header_and_footer : Self -> list loc -> M (list loc).

Definition getattr (self : Self) (name : string) : option Attr :=
  match assoc name builtin_names, assoc name method_names with
  | Some b, _ => Some (A_macro b)
  | None, Some m => Some (A_method m)
  | None, None =>
      if String.eqb name "track" || String.eqb name "cfg" then Some A_data
      else if String.eqb name "lesson" then
        match lesson self with Some _ => Some A_data | None => None end
      else A_inherited <$> inherited name
  end.

(** [macro_method( *args, cell=cell)] for a built-in macro: the arguments
    are bound as the method's signature says. *)
Definition call_macro (self : Self) (b : Builtin) (args : list string)
    (cell : loc) : M PyVal :=
  match b, args with
  | B_EXERCISE_FORKING_URL, [] => lift (EXERCISE_FORKING_URL self None)
  | B_EXERCISE_FORKING_URL, [a] => lift (EXERCISE_FORKING_URL self (Some a))
  | B_HIDE_INPUT, [] => HIDE_INPUT cell
  | B_HIDE_OUTPUT, [] => HIDE_OUTPUT cell
  | B_HIDE, [] => HIDE cell
  | B_YOURTURN, [] => lift (YOURTURN self)
  | B_TUT_BETA_NOTE, [a] => lift (TUT_BETA_NOTE a)
  | B_EXERCISE_SETUP, [] => lift EXERCISE_SETUP
  | B_TUTORIAL_URL, [] => lift (TUTORIAL_URL self None)
  | B_TUTORIAL_URL, [a] => lift (TUTORIAL_URL self (Some a))
  | B_EXERCISE_URL, [a] => lift (EXERCISE_URL self a)
  | B_EXERCISE_PREAMBLE, [] => lift (EXERCISE_PREAMBLE self)
  | B_KEEP_GOING, [] => lift (KEEP_GOING self)
  | B_END_OF_EMB_EXERCISE, [a] => lift (END_OF_EMB_EXERCISE self a)
  | _, _ => raise TypeError
  end.

(** The same call on one of the other methods. Those without a [cell]
    parameter reject the keyword; [make_cell(x, cell=cell)] builds a node,
    which nothing refers to afterwards; [process_cell(cell=cell)] re-enters
    the dispatcher on the cell it is already processing, whose text is
    only assigned at the end, so it meets the same reference again and
    never returns; [expand_macro(x, cell=cell)] expands [x]. *)
Definition call_method (rec : string -> loc -> M PyVal) (m : Method)
    (args : list string) (cell : loc) : M PyVal :=
  match m, args with
  | Meth_make_cell, [_] => ret VObj
  | Meth_process_cell, [] => raise RecursionError
  | Meth_expand_macro, [a] => rec a cell
  | _, _ => raise TypeError
  end.

Definition call_attr (rec : string -> loc -> M PyVal) (self : Self)
    (a : Attr) (args : list string) (cell : loc) : M PyVal :=
  match a with
  | A_macro b => call_macro self b args cell
  | A_method m => call_method rec m args cell
  | A_data => raise TypeError
  | A_inherited call => call args cell
  end.

(** Lines 171-174: the name and the argument list of a reference. *)
Definition parse_macro (macro : string) : Res (string * list string) :=
  if PyStr.endswith_char macro ")" then
    match PyStr.split "(" (PyStr.init macro) with
    | [name; argstr] =>
        Ok (name, if String.eqb (PyStr.strip argstr) "" then []
                  else [PyStr.strip argstr])
    | _ => Raise ValueError
    end
  else Ok (macro, []).

Definition unrecognized (name : string) : exn :=
  UnrecognizedMacroException
    ("Don't know how to handle the macro with name: " ++ name).

(** [expand_macro], with the call it may make to itself through the
    attribute [expand_macro] left open. *)
Definition expand_macro_with (rec : string -> loc -> M PyVal) (self : Self)
    (macro : string) (cell : loc) : M PyVal :=
  p <- lift (parse_macro macro) ;;
  match getattr self (fst p) with
  | None => raise (unrecognized (fst p))
  | Some a => call_attr rec self a (snd p) cell
  end.

(** A reference [expand_macro(x)] expands [x], which has no parenthesis
    left (the split allows one) or ends with one and fails to parse: the
    inner call never reaches a third one. *)
Definition expand_macro_inner : Self -> string -> loc -> M PyVal :=
  expand_macro_with (fun _ _ => raise RecursionError).

Definition expand_macro (self : Self) : string -> loc -> M PyVal :=
  expand_macro_with (expand_macro_inner self) self.

(** Lines 143-153: the [try] around [expand_macro]. Logging and printing
    are left out. *)
Definition try_expand (self : Self) (macro : string) (cell : loc)
  : M PyVal :=
  catch (expand_macro self macro cell)
    (fun e =>
       match e with
       | UnrecognizedMacroException _ =>
           if IGNORE_UNKNOWN_MACROS then ret VNone else raise e
       | _ => raise e
       end).

(** Lines 156-157: [if expansion: newsrc += expansion]. *)
Definition add_expansion (newsrc : string) (expansion : PyVal) : Res string :=
  if truthy expansion then
    match expansion with
    | VStr e => Ok (newsrc ++ e)
    | _ => Raise TypeError
    end
  else Ok newsrc.

(** Lines 139-159: the loop over the matches, with its two variables. *)
Fixpoint expand_matches (self : Self) (cell : loc) (src : string)
    (macros : list Re.Match) (newsrc : string) (i : nat) : M string :=
  match macros with
  | [] => ret (newsrc ++ PyStr.drop i src)
  | m :: rest =>
      let a := Re.m_start m in
      let b := Re.m_end m in
      expansion <- try_expand self (Re.m_group m) cell ;;
      newsrc' <- lift (add_expansion (newsrc ++ PyStr.slice src i a)
                                     expansion) ;;
      expand_matches self cell src rest newsrc' b
  end.

(** Lines 128-161. The cell is changed in place and handed back. *)
Definition process_cell (self : Self) (cell : loc) : M loc :=
  v <- get_source cell ;;
  match v with
  | VStr src =>
      newsrc <- expand_matches self cell src (Re.finditer src) "" 0 ;;
      set_source cell (VStr newsrc) ;;;
      ret cell
  | _ => raise TypeError
  end.

(** The dispatcher as the specification words it: every reference is
    expanded in order, to a text that may be empty, and the result is the
    literal text around the references with the expansions in their
    place. *)
Fixpoint run_expansions (self : Self) (cell : loc) (groups : list string)
  : M (list string) :=
  match groups with
  | [] => ret []
  | g :: gs =>
      expansion <- try_expand self g cell ;;
      e <- lift (add_expansion "" expansion) ;;
      es <- run_expansions self cell gs ;;
      ret (e :: es)
  end.

Definition process_cell_spec (self : Self) (cell : loc) (src : string)
  : M loc :=
  let ms := Re.finditer src in
  es <- run_expansions self cell (Re.m_group <$> ms) ;;
  set_source cell
    (VStr (Re.interleave (Re.literals src 0 ms) es
                         (Re.tail_after src 0 ms))) ;;;
  ret cell.

(** *** Cells made by the preprocessor *)

(** Lines 110-125, called with [source=...] as the only keyword: for
    ["code"] the second [dict] replaces the first. *)
Definition make_cell (cell_type : string) (src : PyVal) : M loc :=
  let defaults :=
    if String.eqb cell_type "code"
    then mkCell None None None (Some VNone) (Some (VList []))
    else mkCell (Some cell_type) (Some ∅) (Some (VList [])) None None in
  alloc (with_source defaults src).

(** Lines 105-108. *)
Definition pip_install_cell (pkg_spec : string) : M loc :=
  make_cell "code"
    (VList ["!pip install -U -t /kaggle/working/ " ++ pkg_spec]).

(** Lines 85-103. *)
Definition pip_install_hack (pkgs : list string) : M unit :=
  match pkgs with
  | [] => ret tt
  | _ =>
      extra_cells <-
        (fix each (l : list string) : M (list loc) :=
           match l with
           | [] => ret []
           | pkg :: r =>
               c <- pip_install_cell pkg ;;
               cs <- each r ;;
               ret (c :: cs)
           end) pkgs ;;
      syspath_cell <-
        make_cell "code"
          (VList ["import sys" ++ PyStr.NL;
                  "sys.path.append('/kaggle/working')"]) ;;
      old <- get_nb_cells ;;
      set_nb_cells ((extra_cells ++ [syspath_cell]) ++ old)
  end.

(** Lines 73-83: only [CalledProcessError] is caught. *)
Definition pip_install_lt_hack : M unit :=
  branch <-
    match git_branch with
    | Ok b => ret b
    | Raise CalledProcessError => ret "master"
    | Raise e => raise e
    end ;;
  pip_install_hack
    ["git+https://github.com/Kaggle/learntools.git@" ++ branch].

(** The names bound in the module's global scope (and no builtin is called
    [make_cell] or [footer_cells]). *)
Definition module_globals : list string :=
  [ "re"; "logging"; "os"; "subprocess"; "nbformat"; "Preprocessor";
    "MacroProcessor"; "DEBUG"; "IGNORE_UNKNOWN_MACROS";
    "UnrecognizedMacroException"; "get_git_branch";
    "LearnLessonPreprocessor" ].

(** Evaluating a name that is neither a local nor an attribute access, as
    [make_cell] at lines 69 and 70 and [footer_cells] at line 71. *)
Definition global_name (name : string) : M unit :=
  if bool_decide (name ∈ module_globals) then ret tt
  else raise (NameError name).

(** Lines 42-50: the loop over [nb.cells]; [break] returns what has been
    collected. The cell [process_cell] returns has a [source] key, so it is
    truthy and [c and macroer.process_cell(c)] is its second operand. *)
Fixpoint scan_cells (self : Self) (cells : list loc) (new_cells : list loc)
  : M (list loc) :=
  match cells with
  | [] => ret new_cells
  | cell :: rest =>
      src <- get_source cell ;;
      match src with
      | VStr s =>
          if String.eqb (PyStr.strip s) "#%%RM_BELOW%%" then ret new_cells
          else
            c <- process_cell self cell ;;
            c' <- macroer_process_cell (cfg self) c ;;
            match c' with
            | Some c'' => scan_cells self rest (new_cells ++ [c''])
            | None => scan_cells self rest new_cells
            end
      | _ => raise (AttributeError "strip")
      end
  end.

(** Lines 28-61. The returned pair is the document itself and the
    resources, both as they were passed: the result is in the store. Line
    54 drops what [add_header_and_footer] returns. *)
Definition preprocess (resources : Resources) : M unit :=
  let self := bind_self resources in
  cells <- get_nb_cells ;;
  new_cells <- scan_cells self cells [] ;;
  (if negb (cfg_truthy (cfg self) "daily")
   then add_header_and_footer self new_cells ;;; ret tt
   else ret tt) ;;;
  set_nb_cells new_cells ;;;
  if cfg_truthy (track_cfg resources) "development"
     && String.eqb (type (nb_meta resources)) "exercise"
  then pip_install_lt_hack
  else ret tt.

End Pass.

End LessonPreprocessor.

(** ** The offline geocoder (learntools/geospatial/tools.py) *)

Module Geospatial.

Definition all_addresses : list string :=
  [ "2224 Shattuck Avenue Berkeley CA";
    "1799 Solano Avenue Berkeley CA";
    "1444 Shattuck Place Berkeley CA";
    "3001 Telegraph Avenue Berkeley CA";
    "2128 Oxford Street Berkeley CA" ].

(** [l.index(x)]: the first position of [x], or [ValueError]. *)
Fixpoint index (x : string) (l : list string) : Res nat :=
  match l with
  | [] => Raise ValueError
  | y :: r =>
      if String.eqb y x then Ok 0
      else res_bind (index x r) (fun i => Ok (S i))
  end.

Definition shapefile (my_index : nat) : string :=
  "../input/geospatial-learn-course-data/ex4_files/ex4_files/add_"
  ++ PyStr.of_nat my_index ++ ".shp".

Section Geocode.

(** geopandas and geopy are libraries: a data frame, its two coordinate
    columns, and the point built from them. Each step may raise. *)
Variables GeoDataFrame Series Point : Type.
Variable read_file : string -> Res GeoDataFrame.
Variable geometry_y geometry_x : GeoDataFrame -> Res Series.
Variable new_Point : Series -> Series -> Res Point.

(** The body of the [try]. *)
Definition geocode_try (address : string) : Res Point :=
  res_bind (index address all_addresses) (fun my_index =>
  res_bind (read_file (shapefile my_index)) (fun gdf =>
  res_bind (geometry_y gdf) (fun latitude =>
  res_bind (geometry_x gdf) (fun longitude =>
  new_Point latitude longitude)))).

(** [Nominatim.geocode]: the bare [except] turns every exception into
    [None]. *)
Definition geocode (address : string) : Res (option Point) :=
  match geocode_try address with
  | Ok p => Ok (Some p)
  | Raise _ => Ok None
  end.

End Geocode.

End Geospatial.

(** ** Example documents *)

Module Examples.

Import LessonPreprocessor.

Definition lesson2 : Lesson :=
  mkLesson "Functions" (Some (mkTutorial "https://k.example/t2"))
           (Some (mkExercise "https://k.example/e2")) true None.

Definition lesson1 : Lesson :=
  mkLesson "Syntax" (Some (mkTutorial "https://k.example/t1"))
           (Some (mkExercise "https://k.example/e1")) false (Some lesson2).

Definition python_track : Track :=
  mkTrack "Python" "https://www.kaggle.com/learn/python" [lesson1; lesson2].

Definition self_of (cfg : gmap string PyVal) : Self :=
  mkSelf python_track (Some lesson1) cfg.

Definition resources_of (cfg : gmap string PyVal) (ty : string)
  : Resources :=
  mkResources python_track (Some lesson1) cfg (mkNbMeta ty).

(** A document whose cells are the given texts, in markdown. *)
Definition document (texts : list string) : Store :=
  mkStore (text_cell "markdown" <$> texts) (seq 0 (length texts)).

(** No inherited attribute, and a resolver that keeps every cell. *)
Definition no_inherited : string -> option (list string -> loc -> M PyVal) :=
  fun _ => None.
Definition keep_all : gmap string PyVal -> loc -> M (option loc) :=
  fun _ c => ret (Some c).

(** A framing that does what the docstring of [add_header_and_footer]
    says: a header cell first, then the cells, then a footer cell, with
    the texts of lines 65 to 68. *)
Definition documented_framing (self : Self) (cells : list loc)
  : M (list loc) :=
  let course_info :=
    "**[" ++ course_name (track self) ++ " Course Home Page]("
    ++ course_url (track self) ++ ")**" in
  header_cell <-
    make_cell "markdown" (VStr (course_info ++ PyStr.NL ++ "---")) ;;
  footer_cell <-
    make_cell "markdown" (VStr ("---" ++ PyStr.NL ++ course_info)) ;;
  ret (header_cell :: cells ++ [footer_cell]).

(** A base class with one attribute, the flag [enabled]: calling it is a
    [TypeError]. *)
Definition base_attrs : string -> option (list string -> loc -> M PyVal) :=
  fun name =>
    if String.eqb name "enabled" then Some (fun _ _ => raise TypeError)
    else None.

Definition daily_cfg : gmap string PyVal := {[ "daily" := VBool true ]}.
Definition daily_dev_cfg : gmap string PyVal :=
  {[ "daily" := VBool true; "development" := VBool true ]}.

End Examples.

(** ** Notions used to state further properties *)

Module Notions.

Import LessonPreprocessor.

(** The least and the greatest number of positional arguments each macro
    method accepts besides [self], read off its signature. *)
Definition arity (b : Builtin) : nat * nat :=
  match b with
  | B_EXERCISE_FORKING_URL | B_TUTORIAL_URL => (0, 1)
  | B_TUT_BETA_NOTE | B_EXERCISE_URL | B_END_OF_EMB_EXERCISE => (1, 1)
  | B_HIDE_INPUT | B_HIDE_OUTPUT | B_HIDE | B_YOURTURN | B_EXERCISE_SETUP
  | B_EXERCISE_PREAMBLE | B_KEEP_GOING => (0, 0)
  end.

(** The cells [pip_install_hack] builds, as [make_cell] leaves them. *)
Definition install_cell (pkg_spec : string) : Cell :=
  mkCell None None
    (Some (VList ["!pip install -U -t /kaggle/working/ " ++ pkg_spec]))
    (Some VNone) (Some (VList [])).

Definition syspath_cell : Cell :=
  mkCell None None
    (Some (VList ["import sys" ++ PyStr.NL;
                  "sys.path.append('/kaggle/working')"]))
    (Some VNone) (Some (VList [])).

(** Two cells that differ at most in their metadata, and at most in their
    metadata and text. *)
Definition same_but_metadata (v v' : Cell) : Prop :=
  cell_type v' = cell_type v /\ source v' = source v
  /\ execution_count v' = execution_count v /\ outputs v' = outputs v.

Definition same_but_text (v v' : Cell) : Prop :=
  cell_type v' = cell_type v
  /\ execution_count v' = execution_count v /\ outputs v' = outputs v.

(** From [st] to [st'] the document's list of cells and the number of
    cells are the same, every cell but [cell] is the same, and [cell]
    changed at most as [R] allows. *)
Definition frame (R : Cell -> Cell -> Prop) (cell : loc) (st st' : Store)
  : Prop :=
  nb_cells st' = nb_cells st
  /\ length (heap st') = length (heap st)
  /\ forall c v, heap st !! c = Some v ->
        exists v', heap st' !! c = Some v'
                   /\ (c <> cell -> v' = v) /\ R v v'.

(** The text [s] has, at offset [k], a reference with inner text [g]:
    [#$], then [g], not empty and without [$], then [$]. *)
Definition ref_at (s : string) (k : nat) (g : string) : Prop :=
  exists a b, s = a ++ Re.wrap g ++ b /\ String.length a = k
              /\ g <> "" /\ PyStr.has_char "$" g = false.

(** What a scan from the left for references that do not overlap is to
    report on a text [s] whose head has index [pos]: nothing when [s] has
    no reference anywhere; otherwise the leftmost reference, with its
    span, and then what it is to report on the text after that
    reference. *)
Inductive Scan : string -> nat -> list Re.Match -> Prop :=
| Scan_none (s : string) (pos : nat) :
    (forall k g, ~ ref_at s k g) -> Scan s pos []
| Scan_first (s : string) (pos : nat) (a g b : string)
    (ms : list Re.Match) :
    g <> "" -> PyStr.has_char "$" g = false ->
    s = a ++ Re.wrap g ++ b ->
    (forall k g', k < String.length a -> ~ ref_at s k g') ->
    Scan b (pos + String.length a + (String.length g + 3)) ms ->
    Scan s pos
      (Re.mkMatch (pos + String.length a)
                  (pos + String.length a + (String.length g + 3)) g :: ms).

(** Whether a lookup found an attribute of the base class. *)
Definition inherited_attr (a : option Attr) : bool :=
  match a with
  | Some (A_inherited _) => true
  | _ => false
  end.

(** The names a reference with inner text [g] can make [getattr] look
    up: its own, and behind [expand_macro(x)] the name of [x]. *)
Definition reached_names (g : string) : list string :=
  match parse_macro g with
  | Ok (name, args) =>
      name ::
      match args with
      | [x] =>
          if String.eqb name "expand_macro" then
            match parse_macro x with
            | Ok (n, _) => [n]
            | Raise _ => []
            end
          else []
      | _ => []
      end
  | Raise _ => []
  end.

(** The scan goes through all of [cells] without stopping: no cell holds
    the truncation token at its turn, every cell is processed without an
    exception and handed to the resolver. It starts with [acc] in the
    store [st] and ends with [acc'] in [st']. *)
Inductive scanned (IGNORE_UNKNOWN_MACROS : bool)
    (inherited : string -> option (list string -> loc -> M PyVal))
    (macroer : gmap string PyVal -> loc -> M (option loc)) (self : Self)
  : list loc -> list loc -> Store -> list loc -> Store -> Prop :=
| scanned_nil (acc : list loc) (st : Store) :
    scanned IGNORE_UNKNOWN_MACROS inherited macroer self [] acc st acc st
| scanned_cons (cell : loc) (rest acc acc' : list loc)
    (st st1 st2 st' : Store) (v : Cell) (t : string) (c : loc)
    (kept : option loc) :
    heap st !! cell = Some v -> source v = Some (VStr t) ->
    String.eqb (PyStr.strip t) "#%%RM_BELOW%%" = false ->
    process_cell IGNORE_UNKNOWN_MACROS inherited self cell st
    = (st1, Ok c) ->
    macroer (cfg self) c st1 = (st2, Ok kept) ->
    scanned IGNORE_UNKNOWN_MACROS inherited macroer self rest
      (match kept with Some c' => acc ++ [c'] | None => acc end) st2
      acc' st' ->
    scanned IGNORE_UNKNOWN_MACROS inherited macroer self (cell :: rest)
      acc st acc' st'.

(** A cell without a [metadata] key, like those [make_cell] builds for
    ["code"]. *)
Definition bare_document (src : string) : Store :=
  mkStore [mkCell None None (Some (VStr src)) (Some VNone) (Some (VList []))]
          [0].

End Notions.

(** * Properties *)

(** ** The primitives on examples *)

Example strip_sentinel :
  PyStr.strip (" #%%RM_BELOW%%" ++ PyStr.NL) = "#%%RM_BELOW%%".
Proof. reflexivity. Qed.

Example finditer_two :
  Re.finditer "a#$X$b#$$#$Y(1)$c#$z" =
    [Re.mkMatch 1 5 "X"; Re.mkMatch 9 16 "Y(1)"].
Proof. reflexivity. Qed.

Example int_examples :
  PyStr.int "2" = Some 2%Z /\ PyStr.int "-3" = Some (-3)%Z /\
  PyStr.int "1_0" = Some 10%Z /\ PyStr.int "1__0" = None /\
  PyStr.int "" = None /\ PyStr.int "x" = None /\ PyStr.int "0" = Some 0%Z.
Proof. repeat split; reflexivity. Qed.

(** Blanks around the number: a space and a no-break space are skipped,
    the separator FS (code 28), which [str.strip] removes, is not. *)
Example int_blanks :
  PyStr.int " 7 " = Some 7%Z
  /\ PyStr.int (String (ascii_of_nat 160) "7") = Some 7%Z
  /\ PyStr.strip (String (ascii_of_nat 28) "7") = "7"
  /\ PyStr.int (String (ascii_of_nat 28) "7") = None
  /\ PyStr.int "- 7" = None.
Proof. repeat split; reflexivity. Qed.

Example split_examples :
  PyStr.split "(" "A(b" = ["A"; "b"] /\ PyStr.split "(" "A" = ["A"] /\
  PyStr.split "(" "" = [""] /\ PyStr.split "(" "A(b(c" = ["A"; "b"; "c"].
Proof. repeat split; reflexivity. Qed.

(** ** Text *)

Module PyStrFacts.

Import PyStr.

Lemma app_cons (c : ascii) (a b : string) :
  String c a ++ b = String c (a ++ b).
Proof. reflexivity. Qed.

Lemma app_nil_l (b : string) : "" ++ b = b.
Proof. reflexivity. Qed.

Ltac sapp := rewrite ?app_cons, ?app_nil_l.

Lemma app_nil_r (s : string) : s ++ "" = s.
Proof. induction s as [|c s IH]; sapp; [done | by rewrite IH]. Qed.

Lemma app_assoc (a b c : string) : (a ++ b) ++ c = a ++ b ++ c.
Proof. induction a as [|x a IH]; sapp; [done | by rewrite IH]. Qed.

Lemma length_app (a b : string) :
  String.length (a ++ b) = String.length a + String.length b.
Proof. induction a as [|x a IH]; sapp; simpl; [done | by rewrite IH]. Qed.

Lemma take_drop (n : nat) (s : string) : take n s ++ drop n s = s.
Proof.
  revert s; induction n as [|n IH]; intros [|c s]; simpl; sapp; try done.
  by rewrite IH.
Qed.

Lemma drop_drop (i k : nat) (s : string) : drop (i + k) s = drop k (drop i s).
Proof.
  revert s; induction i as [|i IH]; intros s; simpl; [done|].
  destruct s as [|c s]; [by destruct k | apply IH].
Qed.

Lemma drop_app_length (x s : string) : drop (String.length x) (x ++ s) = s.
Proof. induction x as [|c x IH]; sapp; simpl; [by destruct s | done]. Qed.

Lemma take_app_length (x s : string) : take (String.length x) (x ++ s) = x.
Proof.
  induction x as [|c x IH]; sapp; simpl; [by destruct s | by rewrite IH].
Qed.

Lemma drop_0 (s : string) : drop 0 s = s.
Proof. by destruct s. Qed.

(** [s[i:] = s[i:a] + s[a:]] whenever [i <= a]. *)
Lemma drop_slice (s : string) (i a : nat) :
  i <= a -> drop i s = slice s i a ++ drop a s.
Proof.
  intros Hia. unfold slice.
  replace a with (i + (a - i)) at 2 by lia.
  by rewrite drop_drop, take_drop.
Qed.

Lemma slice_app_length (pre x rest : string) :
  slice (pre ++ x ++ rest) (String.length pre)
        (String.length pre + String.length x) = x.
Proof.
  unfold slice. rewrite drop_app_length.
  replace (String.length pre + String.length x - String.length pre)
    with (String.length x) by lia.
  apply take_app_length.
Qed.


Lemma app_cons_tail (pre : string) (c : ascii) (r : string) :
  pre ++ String c r = (pre ++ String c "") ++ r.
Proof. by rewrite app_assoc. Qed.

End PyStrFacts.

(** ** The pattern *)

Module ReFacts.

Import PyStr PyStrFacts Re.

Lemma until_dollar_Some (s g t : string) :
  until_dollar s = Some (g, t) ->
  s = g ++ String "$" t /\ has_char "$" g = false.
Proof.
  revert g t; induction s as [|c s IH]; intros g t; simpl; [done|].
  destruct (Ascii.eqb c "$") eqn:Hc.
  - apply Ascii.eqb_eq in Hc as ->. by intros [= <- <-].
  - destruct (until_dollar s) as [[g' t']|]; [|done].
    intros [= <- <-]. destruct (IH _ _ eq_refl) as [-> Hg].
    split; [by sapp|]. simpl. by rewrite Hc.
Qed.

Lemma until_dollar_app (g t : string) :
  has_char "$" g = false -> until_dollar (g ++ String "$" t) = Some (g, t).
Proof.
  induction g as [|c g IH]; sapp; simpl; [done|].
  intros [Hc Hg]%orb_false_elim. rewrite Hc. by rewrite IH.
Qed.

Lemma until_dollar_None (s : string) :
  has_char "$" s = false -> until_dollar s = None.
Proof.
  induction s as [|c s IH]; simpl; [done|].
  intros [Hc Hs]%orb_false_elim. rewrite Hc. by rewrite IH.
Qed.

(** The anchored pattern matches exactly the texts [#$g$...] with [g]
    not empty and free of [$]. *)
Lemma wrap_app (g rest : string) :
  wrap g ++ rest = String "#" (String "$" (g ++ String "$" rest)).
Proof. unfold wrap. by rewrite !app_assoc. Qed.

Lemma length_wrap (g : string) : String.length (wrap g) = String.length g + 3.
Proof. unfold wrap. rewrite !length_app. simpl. lia. Qed.

Lemma match_at_Some (s g : string) :
  match_at s = Some g <->
  g <> "" /\ has_char "$" g = false /\ exists rest, s = wrap g ++ rest.
Proof.
  split.
  - destruct s as [|c1 [|c2 r]]; simpl; try done.
    destruct (Ascii.eqb c1 "#") eqn:H1; [|done].
    destruct (Ascii.eqb c2 "$") eqn:H2; [|done]. simpl.
    apply Ascii.eqb_eq in H1 as ->. apply Ascii.eqb_eq in H2 as ->.
    destruct (until_dollar r) as [[[|c g'] t]|] eqn:Hu; try done.
    intros [= <-]. apply until_dollar_Some in Hu as [-> Hg].
    repeat split; [done | done |]. exists t. by rewrite wrap_app.
  - intros (Hne & Hg & rest & ->). rewrite wrap_app. simpl.
    rewrite until_dollar_app by done.
    by destruct g.
Qed.

Lemma match_at_no_dollar (s : string) :
  has_char "$" s = false -> match_at s = None.
Proof.
  destruct s as [|c1 [|c2 r]]; simpl; try done.
  intros [_ [H2 _]%orb_false_elim]%orb_false_elim.
  rewrite H2. by rewrite andb_false_r.
Qed.

Lemma well_spanned_mono (src : string) (i j : nat) (ms : list Match) :
  i <= j -> well_spanned src j ms -> well_spanned src i ms.
Proof.
  destruct ms as [|m r]; simpl; [done|].
  intros Hij (H1 & H2 & H3 & H4). repeat split; [lia | done..].
Qed.

(** Every match [finditer] reports spans the text of a reference, and the
    matches come in order without overlap. *)
Lemma finditer_from_well_spanned (s pre : string) (skip : nat) :
  well_spanned (pre ++ s) (String.length pre + skip)
               (finditer_from skip (String.length pre) s).
Proof.
  revert pre skip; induction s as [|c r IH]; intros pre skip; [done|].
  assert (Hlen : String.length (pre ++ String c "") = S (String.length pre))
    by (rewrite length_app; simpl; lia).
  rewrite app_cons_tail. cbn [finditer_from]. destruct skip as [|k].
  - destruct (match_at (String c r)) as [g|] eqn:Hm.
    + apply match_at_Some in Hm as (_ & _ & rest & Hs).
      cbn [well_spanned m_start m_end m_group].
      repeat split; [lia | lia | |].
      * rewrite <- app_cons_tail, Hs, <- length_wrap.
        apply slice_app_length.
      * specialize (IH (pre ++ String c "") (String.length g + 2)).
        rewrite Hlen in IH.
        replace (String.length pre + (String.length g + 3))
          with (S (String.length pre) + (String.length g + 2)) by lia.
        done.
    + specialize (IH (pre ++ String c "") 0). rewrite Hlen in IH.
      eapply well_spanned_mono; [|exact IH]. lia.
  - specialize (IH (pre ++ String c "") k). rewrite Hlen in IH.
    replace (String.length pre + S k) with (S (String.length pre) + k) by lia.
    done.
Qed.

Lemma finditer_well_spanned (src : string) :
  well_spanned src 0 (finditer src).
Proof. apply (finditer_from_well_spanned src "" 0). Qed.


Lemma finditer_from_no_dollar (s : string) (pos : nat) :
  has_char "$" s = false -> finditer_from 0 pos s = [].
Proof.
  revert pos; induction s as [|c r IH]; intros pos Hs; [done|].
  cbn [finditer_from]. rewrite (match_at_no_dollar _ Hs).
  apply IH. simpl in Hs. by apply orb_false_elim in Hs as [_ ?].
Qed.

(** No match starts in a prefix without [$] that is followed by [#]. *)
Lemma finditer_from_prefix (pre s : string) (pos : nat) :
  has_char "$" pre = false ->
  finditer_from 0 pos (pre ++ String "#" s) =
  finditer_from 0 (pos + String.length pre) (String "#" s).
Proof.
  revert pos; induction pre as [|c pre IH]; intros pos Hpre.
  { rewrite app_nil_l. simpl. by rewrite Nat.add_0_r. }
  simpl in Hpre. apply orb_false_elim in Hpre as [Hc Hpre].
  assert (Hm : match_at (String c (pre ++ String "#" s)) = None).
  { destruct pre as [|d pre]; simpl.
    - by rewrite andb_false_r.
    - simpl in Hpre. apply orb_false_elim in Hpre as [-> _].
      by rewrite andb_false_r. }
  remember (String "#" s) as t eqn:Ht.
  rewrite app_cons. cbn [finditer_from]. rewrite Hm, IH by done.
  f_equal. simpl. lia.
Qed.

Lemma finditer_from_skip (x s : string) (pos : nat) :
  finditer_from (String.length x) pos (x ++ s) =
  finditer_from 0 (pos + String.length x) s.
Proof.
  revert pos; induction x as [|c x IH]; intros pos.
  { rewrite app_nil_l. simpl. by rewrite Nat.add_0_r. }
  rewrite app_cons. simpl. rewrite IH. f_equal. lia.
Qed.

Lemma finditer_from_match (c : ascii) (r g : string) (pos : nat) :
  match_at (String c r) = Some g ->
  finditer_from 0 pos (String c r) =
    mkMatch pos (pos + (String.length g + 3)) g
    :: finditer_from (String.length g + 2) (S pos) r.
Proof. intros Hm. cbn [finditer_from]. by rewrite Hm. Qed.

(** The first match of a text that starts with a [$]-free prefix and a
    reference. *)
Lemma finditer_first (pre ref post : string) :
  has_char "$" pre = false -> ref <> "" -> has_char "$" ref = false ->
  finditer (pre ++ wrap ref ++ post) =
    mkMatch (String.length pre)
            (String.length pre + (String.length ref + 3)) ref
    :: finditer_from 0 (String.length pre + (String.length ref + 3)) post.
Proof.
  intros Hpre Hne Href. unfold finditer.
  rewrite wrap_app, finditer_from_prefix, Nat.add_0_l by done.
  rewrite (finditer_from_match _ _ ref)
    by (rewrite <- wrap_app; apply match_at_Some; eauto).
  f_equal.
  replace (String "$" (ref ++ String "$" post))
    with (String "$" (ref ++ "$") ++ post)
    by (by rewrite app_cons, app_assoc).
  replace (String.length ref + 2)
    with (String.length (String "$" (ref ++ "$")))
    by (cbn [String.length]; rewrite length_app; simpl; lia).
  rewrite finditer_from_skip. f_equal.
  cbn [String.length]. rewrite length_app. simpl. lia.
Qed.

End ReFacts.

(** ** The macro dispatcher *)

Module DispatcherFacts.

Import PyStr PyStrFacts Re ReFacts LessonPreprocessor.

Section Dispatcher.

Variable IGNORE_UNKNOWN_MACROS : bool.
Variable inherited : string -> option (list string -> loc -> M PyVal).

#[local] Abbreviation try_expand := (try_expand IGNORE_UNKNOWN_MACROS inherited).
#[local] Abbreviation expand_matches := (expand_matches IGNORE_UNKNOWN_MACROS inherited).
#[local] Abbreviation run_expansions := (run_expansions IGNORE_UNKNOWN_MACROS inherited).
#[local] Abbreviation process_cell := (process_cell IGNORE_UNKNOWN_MACROS inherited).
#[local] Abbreviation process_cell_spec :=
  (process_cell_spec IGNORE_UNKNOWN_MACROS inherited).

Lemma add_expansion_app (x : string) (v : PyVal) :
  add_expansion x v = res_bind (add_expansion "" v) (fun e => Ok (x ++ e)).
Proof.
  unfold add_expansion. destruct (truthy v); [|by simpl; rewrite app_nil_r].
  by destruct v.
Qed.

(** The loop with its index [i] and its accumulator computes the
    interleaving of the literal pieces and the expansions. *)
Lemma expand_matches_spec (self : Self) (cell : loc) (src : string)
    (ms : list Match) (newsrc : string) (i : nat) (st : Store) :
  expand_matches self cell src ms newsrc i st =
  (es <- run_expansions self cell (m_group <$> ms) ;;
   ret (newsrc ++ interleave (literals src i ms) es (tail_after src i ms)))
    st.
Proof.
  revert newsrc i st; induction ms as [|m r IH]; intros newsrc i st; [done|].
  cbn [expand_matches run_expansions fmap list_fmap literals tail_after].
  unfold bind at 1 3 4. destruct (try_expand self (m_group m) cell st)
    as [st1 [v|e]]; [|done].
  unfold bind at 1 3. unfold lift. rewrite add_expansion_app.
  destruct (add_expansion "" v) as [e|err]; [|done]. cbn [res_bind].
  rewrite IH. unfold bind.
  destruct (LessonPreprocessor.run_expansions _ _ self cell _ st1)
    as [st2 [es|err]]; [|done].
  unfold ret. cbn [interleave]. by rewrite !app_assoc.
Qed.

Lemma process_cell_refines (self : Self) (cell : loc) (st : Store)
    (v : Cell) (src : string) :
  heap st !! cell = Some v -> source v = Some (VStr src) ->
  process_cell self cell st = process_cell_spec self cell src st.
Proof.
  intros Hv Hsrc. unfold LessonPreprocessor.process_cell, process_cell_spec.
  unfold get_source, get_cell, bind. rewrite Hv, Hsrc. unfold ret at 1.
  rewrite expand_matches_spec. unfold bind.
  destruct (LessonPreprocessor.run_expansions _ _ self cell _ st)
    as [st1 [es|err]]; [|done].
  unfold ret at 1. by rewrite app_nil_l.
Qed.

(** Storing the text a cell already has changes nothing. *)
Lemma set_source_same (cell : loc) (st : Store) (v : Cell) (src : string) :
  heap st !! cell = Some v -> source v = Some (VStr src) ->
  set_source cell (VStr src) st = (st, Ok tt).
Proof.
  intros Hv Hsrc. unfold set_source, bind, get_cell, put_cell.
  rewrite Hv. destruct v as [ct md so ec out]; simpl in *. subst so.
  unfold with_source; simpl. rewrite list_insert_id by done.
  by destruct st.
Qed.

(** A text in which the pattern has no match is stored back as it is. *)
Lemma process_cell_no_match (self : Self) (cell : loc) (st : Store)
    (v : Cell) (src : string) :
  heap st !! cell = Some v -> source v = Some (VStr src) ->
  finditer src = [] ->
  process_cell self cell st = (st, Ok cell).
Proof.
  intros Hv Hsrc Hms.
  rewrite (process_cell_refines _ _ _ _ _ Hv Hsrc).
  unfold LessonPreprocessor.process_cell_spec. rewrite Hms.
  cbn [fmap list_fmap LessonPreprocessor.run_expansions literals
       tail_after interleave].
  unfold bind at 1. unfold ret at 1. unfold bind.
  by rewrite drop_0, (set_source_same _ _ _ _ Hv Hsrc).
Qed.

Lemma set_source_ok (cell : loc) (st : Store) (v : Cell) (x : PyVal) :
  heap st !! cell = Some v ->
  set_source cell x st =
    (mkStore (<[cell := with_source v x]> (heap st)) (nb_cells st), Ok tt).
Proof.
  intros Hv. unfold set_source, bind, get_cell, put_cell. by rewrite Hv.
Qed.

Lemma expand_macro_unrecognized (self : Self) (ref name : string)
    (args : list string) (cell : loc) (st : Store) :
  parse_macro ref = Ok (name, args) ->
  getattr inherited self name = None ->
  expand_macro inherited self ref cell st = (st, Raise (unrecognized name)).
Proof.
  intros Hp Hg. unfold expand_macro, expand_macro_with, bind, lift.
  rewrite Hp. cbn [fst snd]. by rewrite Hg.
Qed.

Lemma split_no_sep (c : ascii) (s : string) :
  has_char c s = false -> split c s = [s].
Proof.
  induction s as [|d s IH]; simpl; [done|].
  intros [Hd Hs]%orb_false_elim. by rewrite Hd, IH.
Qed.

Lemma has_char_init (c : ascii) (s : string) :
  has_char c s = false -> has_char c (init s) = false.
Proof.
  induction s as [|d s IH]; simpl; [done|].
  intros [Hd Hs]%orb_false_elim. destruct s as [|e s]; [done|].
  cbn [has_char]. rewrite Hd. by apply IH.
Qed.

(** The call that a reference [expand_macro(x)] makes expands a text [x]
    without a parenthesis to open, so it makes no further call to
    [expand_macro] with an argument: whatever stands for that call is not
    used. *)
Lemma expand_macro_inner_closed (rec : string -> loc -> M PyVal)
    (self : Self) (x : string) (cell : loc) :
  has_char "(" x = false ->
  expand_macro_with inherited rec self x cell
  = expand_macro_inner inherited self x cell.
Proof.
  intros Hx. unfold expand_macro_inner, expand_macro_with, parse_macro.
  destruct (endswith_char x ")").
  - by rewrite (split_no_sep _ _ (has_char_init _ _ Hx)).
  - unfold bind, lift. cbn [fst snd].
    by destruct (getattr inherited self x) as [[b|m| |f]|].
Qed.

Lemma last_char_snoc (x : string) (c : ascii) :
  last_char (x ++ String c "") = Some c.
Proof.
  induction x as [|d x IH]; [done|]. rewrite app_cons.
  cbn [last_char]. rewrite IH. by destruct x.
Qed.

Lemma init_snoc (x : string) (c : ascii) : init (x ++ String c "") = x.
Proof.
  induction x as [|d x IH]; [done|]. rewrite app_cons.
  cbn [init]. rewrite IH. by destruct x.
Qed.

Lemma split_app_sep (c : ascii) (name arg : string) :
  has_char c name = false ->
  split c (name ++ String c arg) = name :: split c arg.
Proof.
  induction name as [|d name IH]; intros Hn.
  - rewrite app_nil_l. cbn [split]. by rewrite Ascii.eqb_refl.
  - simpl in Hn. apply orb_false_elim in Hn as [Hd Hn].
    rewrite app_cons. cbn [split]. by rewrite Hd, IH.
Qed.

(** A reference [NAME(arg)] parses to its name and its stripped argument. *)
Lemma parse_macro_call (name arg : string) :
  has_char "(" name = false -> has_char "(" arg = false ->
  parse_macro (name ++ "(" ++ arg ++ ")")
  = Ok (name, if String.eqb (strip arg) "" then [] else [strip arg]).
Proof.
  intros Hn Ha. unfold parse_macro.
  replace (name ++ "(" ++ arg ++ ")") with ((name ++ "(" ++ arg) ++ ")")
    by (by rewrite !app_assoc).
  unfold endswith_char. rewrite last_char_snoc, init_snoc.
  cbn [Ascii.eqb Bool.eqb andb]. rewrite app_cons, app_nil_l.
  by rewrite split_app_sep, split_no_sep.
Qed.

(** When the first reference of a text raises, so does the dispatcher, in
    the store the reference left. *)
Lemma process_cell_first_raises (self : Self) (cell : loc) (st st' : Store)
    (v : Cell) (pre ref post : string) (e : exn) :
  heap st !! cell = Some v ->
  source v = Some (VStr (pre ++ wrap ref ++ post)) ->
  has_char "$" pre = false -> ref <> "" -> has_char "$" ref = false ->
  try_expand self ref cell st = (st', Raise e) ->
  process_cell self cell st = (st', Raise e).
Proof.
  intros Hv Hsrc Hpre Hne Href Hraise.
  rewrite (process_cell_refines _ _ _ _ _ Hv Hsrc).
  unfold LessonPreprocessor.process_cell_spec.
  rewrite finditer_first by done.
  cbn [fmap list_fmap m_group LessonPreprocessor.run_expansions].
  unfold bind. by rewrite Hraise.
Qed.

(** The stripped text keeps every character that is not a blank. *)
Lemma has_char_lstrip (c : ascii) (s : string) :
  is_space c = false -> has_char c (lstrip s) = has_char c s.
Proof.
  intros Hc. induction s as [|d s IH]; simpl; [done|].
  destruct (is_space d) eqn:Hd; [|done].
  rewrite IH. destruct (Ascii.eqb d c) eqn:Hdc; [|done].
  apply Ascii.eqb_eq in Hdc as ->. congruence.
Qed.

Lemma has_char_rstrip (c : ascii) (s : string) :
  is_space c = false -> has_char c (rstrip s) = has_char c s.
Proof.
  intros Hc. induction s as [|d s IH]; simpl; [done|].
  destruct (rstrip s) as [|e r] eqn:Hr.
  - rewrite <- IH. simpl. rewrite orb_false_r.
    destruct (is_space d) eqn:Hd; simpl; [|by rewrite orb_false_r].
    destruct (Ascii.eqb d c) eqn:Hdc; [|done].
    apply Ascii.eqb_eq in Hdc as ->. congruence.
  - by rewrite <- IH.
Qed.

Lemma has_char_strip (c : ascii) (s : string) :
  is_space c = false -> has_char c (strip s) = has_char c s.
Proof.
  intros Hc. unfold strip. by rewrite has_char_rstrip, has_char_lstrip.
Qed.

(** A text with a [$] is not the truncation token. *)
Lemma dollar_not_sentinel (s : string) :
  has_char "$" s = true -> String.eqb (strip s) "#%%RM_BELOW%%" = false.
Proof.
  intros Hs. apply String.eqb_neq. intros Heq.
  assert (H : has_char "$" (strip s) = true) by by rewrite has_char_strip.
  by rewrite Heq in H.
Qed.


(** The expansions of a list of references in two parts. *)
Lemma run_expansions_app (self : Self) (cell : loc)
    (g1 g2 : list string) (st : Store) :
  run_expansions self cell (g1 ++ g2) st
  = (es1 <- run_expansions self cell g1 ;;
     es2 <- run_expansions self cell g2 ;;
     ret (es1 ++ es2)%list) st.
Proof.
  revert st; induction g1 as [|g gs IH]; intros st.
  - cbn [app LessonPreprocessor.run_expansions]. unfold bind at 1.
    unfold ret at 1. unfold bind.
    by destruct (LessonPreprocessor.run_expansions _ _ self cell g2 st)
      as [st2 [es|e]].
  - cbn [app LessonPreprocessor.run_expansions]. unfold bind, lift.
    destruct (try_expand self g cell st) as [st1 [v|e]]; [|done].
    destruct (add_expansion "" v) as [x|e]; [|done].
    rewrite IH. unfold bind, ret.
    destruct (LessonPreprocessor.run_expansions _ _ self cell gs st1)
      as [st2 [es1|e]]; [|done].
    by destruct (LessonPreprocessor.run_expansions _ _ self cell g2 st2)
      as [st3 [es2|e]].
Qed.

(** What [process_cell] leaves in the store, given the expansions. *)
Lemma process_cell_result (self : Self) (cell : loc) (st st1 : Store)
    (v v1 : Cell) (src : string) (es : list string) :
  heap st !! cell = Some v -> source v = Some (VStr src) ->
  run_expansions self cell (m_group <$> finditer src) st = (st1, Ok es) ->
  heap st1 !! cell = Some v1 ->
  process_cell self cell st
  = (mkStore
       (<[cell := with_source v1
                    (VStr (interleave (literals src 0 (finditer src)) es
                                      (tail_after src 0 (finditer src))))]>
          (heap st1))
       (nb_cells st1), Ok cell).
Proof.
  intros Hv Hsrc Hrun Hv1.
  rewrite (process_cell_refines _ _ _ _ _ Hv Hsrc).
  unfold LessonPreprocessor.process_cell_spec. unfold bind at 1.
  rewrite Hrun. unfold bind. by rewrite (set_source_ok _ _ _ _ Hv1).
Qed.

Lemma process_cell_raises (self : Self) (cell : loc) (st st1 : Store)
    (v : Cell) (src : string) (e : exn) :
  heap st !! cell = Some v -> source v = Some (VStr src) ->
  run_expansions self cell (m_group <$> finditer src) st = (st1, Raise e) ->
  process_cell self cell st = (st1, Raise e).
Proof.
  intros Hv Hsrc Hrun.
  rewrite (process_cell_refines _ _ _ _ _ Hv Hsrc).
  unfold LessonPreprocessor.process_cell_spec. unfold bind at 1.
  by rewrite Hrun.
Qed.

End Dispatcher.

End DispatcherFacts.

(** ** The references of a text *)

Module ScanFacts.

Import PyStr PyStrFacts Re ReFacts Notions.

Lemma length_take_le (k : nat) (s : string) :
  k <= String.length s -> String.length (take k s) = k.
Proof.
  revert s; induction k as [|k IH]; intros [|c s]; simpl; try lia.
  intros H. rewrite IH; lia.
Qed.

Lemma app_inv_length (a a' b b' : string) :
  a ++ b = a' ++ b' -> String.length a = String.length a' ->
  a = a' /\ b = b'.
Proof.
  revert a'; induction a as [|c a IH]; intros [|c' a']; simpl; try done.
  intros [= <- H] [= Hl]. by destruct (IH _ H Hl) as [-> ->].
Qed.

(** A reference at offset [k] is a match of the pattern anchored there. *)
Lemma ref_at_match_at (s : string) (k : nat) (g : string) :
  ref_at s k g <-> k <= String.length s /\ match_at (drop k s) = Some g.
Proof.
  split.
  - intros (a & b & -> & <- & Hne & Hg). split.
    + rewrite length_app. lia.
    + rewrite drop_app_length. apply match_at_Some. eauto.
  - intros [Hk Hm]. apply match_at_Some in Hm as (Hne & Hg & rest & Hs).
    exists (take k s), rest. rewrite <- Hs, take_drop.
    by rewrite length_take_le.
Qed.



Lemma ref_at_unique (s : string) (k : nat) (g g' : string) :
  ref_at s k g -> ref_at s k g' -> g = g'.
Proof.
  rewrite !ref_at_match_at. intros [_ H] [_ H']. congruence.
Qed.






(** Such a report is unique. *)
Lemma Scan_unique (s : string) (pos : nat) (ms ms' : list Match) :
  Scan s pos ms -> Scan s pos ms' -> ms = ms'.
Proof.
  intros H; revert ms'; induction H as [s pos Hnone|s pos a g b ms Hne Hg Hs
    Hleft Hscan IH]; intros ms' H'.
  - inversion H' as [|? ? a g b ? Hne Hg Hs]; [done|]. subst.
    destruct (Hnone (String.length a) g). by exists a, b.
  - inversion H' as [? ? Hnone|? ? a' g' b' ms'' Hne' Hg' Hs' Hleft' Hscan'];
      subst.
    + destruct (Hnone (String.length a) g). by exists a, b.
    + assert (Hlen : String.length a = String.length a').
      { destruct (Nat.lt_trichotomy (String.length a) (String.length a'))
          as [Hlt|[Heq|Hgt]]; [|done|].
        - destruct (Hleft' _ g Hlt). by exists a, b.
        - destruct (Hleft _ g' Hgt). exists a', b'. by rewrite <- Hs'. }
      destruct (app_inv_length _ _ _ _ Hs' Hlen) as [-> Hrest].
      assert (g = g') as <-.
      { apply (ref_at_unique (a' ++ wrap g ++ b) (String.length a')).
        - by exists a', b.
        - exists a', b'. by rewrite <- Hs'. }
      assert (b = b') as <-.
      { apply (app_inv_length (wrap g) (wrap g)) in Hrest; [by destruct Hrest|done]. }
      f_equal. by apply IH.
Qed.

Lemma finditer_nonempty_dollar (src : string) :
  finditer src <> [] -> has_char "$" src = true.
Proof.
  intros Hne. destruct (has_char "$" src) eqn:H; [done|].
  unfold finditer in Hne. by rewrite (finditer_from_no_dollar _ 0 H) in Hne.
Qed.

End ScanFacts.

(** * The specification, claim by claim *)

Import PyStr PyStrFacts Re ReFacts LessonPreprocessor DispatcherFacts.
Import Examples Notions.



Example process_cell_two_macros :
  snd (process_cell false no_inherited (self_of ∅) 0
         (document ["Intro #$HIDE$to #$EXERCISE_URL(2)$ now"])) = Ok 0
  /\ (source <$> heap (fst (process_cell false no_inherited (self_of ∅) 0
         (document ["Intro #$HIDE$to #$EXERCISE_URL(2)$ now"]))) !! 0)
     = Some (Some (VStr "Intro to https://k.example/e2 now")).
Proof. split; vm_compute; reflexivity. Qed.

(** ** The scan up to a cell *)

Lemma scan_cells_scanned
    (IGNORE_UNKNOWN_MACROS : bool)
    (inherited : string -> option (list string -> loc -> M PyVal))
    (macroer : gmap string PyVal -> loc -> M (option loc))
    (self : Self) (pre post acc acc' : list loc) (st st' : Store) :
  scanned IGNORE_UNKNOWN_MACROS inherited macroer self pre acc st acc' st' ->
  scan_cells IGNORE_UNKNOWN_MACROS inherited macroer self (pre ++ post)%list acc st
  = scan_cells IGNORE_UNKNOWN_MACROS inherited macroer self post acc' st'.
Proof.
  induction 1 as [|cell rest acc acc' st st1 st2 st' v t c kept
                    Hv Hsrc Hne Hpc Hmac Hrest IH]; [done|].
  cbn [app scan_cells]. unfold bind at 1.
  unfold get_source, get_cell, bind at 1. rewrite Hv, Hsrc.
  unfold ret at 1. rewrite Hne. unfold bind at 1. rewrite Hpc.
  unfold bind at 1. rewrite Hmac. by destruct kept.
Qed.

Lemma scan_cells_process_raises
    (IGNORE_UNKNOWN_MACROS : bool)
    (inherited : string -> option (list string -> loc -> M PyVal))
    (macroer : gmap string PyVal -> loc -> M (option loc))
    (self : Self) (cell : loc) (rest acc : list loc) (st st' : Store)
    (v : Cell) (t : string) (e : exn) :
  heap st !! cell = Some v -> source v = Some (VStr t) ->
  String.eqb (strip t) "#%%RM_BELOW%%" = false ->
  process_cell IGNORE_UNKNOWN_MACROS inherited self cell st
  = (st', Raise e) ->
  scan_cells IGNORE_UNKNOWN_MACROS inherited macroer self (cell :: rest)
    acc st = (st', Raise e).
Proof.
  intros Hv Hsrc Hne Hpc. cbn [scan_cells]. unfold bind at 1.
  unfold get_source, get_cell, bind at 1. rewrite Hv, Hsrc.
  unfold ret at 1. rewrite Hne. unfold bind at 1. by rewrite Hpc.
Qed.

Lemma preprocess_scan_raises
    (IGNORE_UNKNOWN_MACROS : bool)
    (inherited : string -> option (list string -> loc -> M PyVal))
    (macroer : gmap string PyVal -> loc -> M (option loc))
    (git_branch : Res string)
    (add_header_and_footer : Self -> list loc -> M (list loc))
    (resources : Resources) (st st' : Store) (e : exn) :
  scan_cells IGNORE_UNKNOWN_MACROS inherited macroer (bind_self resources)
    (nb_cells st) [] st = (st', Raise e) ->
  preprocess IGNORE_UNKNOWN_MACROS inherited macroer git_branch
    add_header_and_footer resources st = (st', Raise e).
Proof.
  intros Hscan. unfold preprocess. unfold bind at 1, get_nb_cells.
  unfold bind at 1. by rewrite Hscan.
Qed.

(** The expansions of a cell in which one reference names nothing the
    preprocessor has, in permissive mode: the empty text stands for it. *)
Lemma run_expansions_unknown
    (inherited : string -> option (list string -> loc -> M PyVal))
    (self : Self) (cell : loc) (g1 g2 : list string)
    (g name : string) (args es1 es2 : list string) (st st1 st2 : Store) :
  parse_macro g = Ok (name, args) -> getattr inherited self name = None ->
  run_expansions true inherited self cell g1 st = (st1, Ok es1) ->
  run_expansions true inherited self cell g2 st1 = (st2, Ok es2) ->
  run_expansions true inherited self cell (g1 ++ g :: g2)%list st
  = (st2, Ok (es1 ++ "" :: es2)%list).
Proof.
  intros Hp Hg H1 H2. rewrite run_expansions_app. unfold bind at 1.
  rewrite H1. unfold bind at 1. cbn [run_expansions]. unfold bind at 1.
  unfold try_expand, catch.
  rewrite (expand_macro_unrecognized _ _ _ _ _ _ _ Hp Hg).
  unfold unrecognized, ret at 1. unfold bind at 1. unfold lift.
  cbv beta iota delta [add_expansion truthy]. unfold bind at 1.
  by rewrite H2.
Qed.

(** C2, as stated, fails. [make_cell] is not one of the built-in macros,
    yet a reference to it is not reported as unrecognized in strict mode,
    and is not removed in permissive mode: the attribute is found on the
    preprocessor and the call fails with a [TypeError]. An unknown
    reference behind one that fails is not reached: the earlier error is
    raised. A cell below the truncation token is not reached either: the
    pass completes. And in permissive mode the other references of the
    cell are expanded, not left as they are, and one of them that fails
    makes the dispatcher raise. *)
Lemma unknown_macro_counterexample :
  assoc "make_cell" builtin_names = None
  /\ process_cell false no_inherited (self_of ∅) 0
       (document ["#$make_cell$"])
     = (document ["#$make_cell$"], Raise TypeError)
  /\ process_cell true no_inherited (self_of ∅) 0
       (document ["#$make_cell$"])
     = (document ["#$make_cell$"], Raise TypeError)
  /\ process_cell false no_inherited (self_of ∅) 0
       (document ["#$EXERCISE_URL(9)$ #$NOPE$"])
     = (document ["#$EXERCISE_URL(9)$ #$NOPE$"], Raise IndexError)
  /\ preprocess false no_inherited keep_all (Ok "master") documented_framing
       (resources_of daily_cfg "tutorial")
       (document ["ok"; "#%%RM_BELOW%%"; "#$NOPE$"])
     = (mkStore (heap (document ["ok"; "#%%RM_BELOW%%"; "#$NOPE$"])) [0],
        Ok tt)
  /\ process_cell true no_inherited (self_of ∅) 0
       (document ["#$NOPE$ see #$EXERCISE_URL(2)$"])
     = (document [" see https://k.example/e2"], Ok 0)
  /\ process_cell true no_inherited (self_of ∅) 0
       (document ["#$NOPE$ see #$EXERCISE_URL(9)$"])
     = (document ["#$NOPE$ see #$EXERCISE_URL(9)$"], Raise IndexError).
Proof. repeat split; vm_compute; reflexivity. Qed.

(** C2, amended. Take a cell whose text has a reference, one of those
    the dispatcher finds, whose name is not an attribute of the
    preprocessor at all, and let the references before it in the cell
    expand without error. In strict mode the dispatcher raises the
    unrecognized-macro exception that names it, and a pass that reaches
    the cell (the cells before it are scanned through) raises the same
    and installs nothing. In permissive mode the dispatcher goes on; when
    the references after it expand too, it returns the cell, whose text
    now has the empty text in the place of that reference, the
    expansions in the place of the other references, and the literal
    text as it was; if it is the only reference of the cell, the text is
    what stood before it followed by what stood after it. *)
Theorem unknown_macro_policy
    (inherited : string -> option (list string -> loc -> M PyVal))
    (macroer : gmap string PyVal -> loc -> M (option loc))
    (git_branch : Res string)
    (add_header_and_footer : Self -> list loc -> M (list loc))
    (resources : Resources) (cell : loc) (st1 : Store) (v : Cell)
    (src : string) (ms1 : list Match) (m : Match) (ms2 : list Match)
    (name : string) (args : list string) :
  heap st1 !! cell = Some v ->
  source v = Some (VStr src) ->
  finditer src = (ms1 ++ m :: ms2)%list ->
  parse_macro (m_group m) = Ok (name, args) ->
  getattr inherited (bind_self resources) name = None ->
  (forall st2 es1,
     run_expansions false inherited (bind_self resources) cell
       (m_group <$> ms1) st1 = (st2, Ok es1) ->
     process_cell false inherited (bind_self resources) cell st1
     = (st2, Raise (unrecognized name))
     /\ forall st pre rest acc,
          nb_cells st = (pre ++ cell :: rest)%list ->
          scanned false inherited macroer (bind_self resources) pre [] st
            acc st1 ->
          preprocess false inherited macroer git_branch
            add_header_and_footer resources st
          = (st2, Raise (unrecognized name)))
  /\ (forall st2 es1 st3 es2 v3,
        run_expansions true inherited (bind_self resources) cell
          (m_group <$> ms1) st1 = (st2, Ok es1) ->
        run_expansions true inherited (bind_self resources) cell
          (m_group <$> ms2) st2 = (st3, Ok es2) ->
        heap st3 !! cell = Some v3 ->
        process_cell true inherited (bind_self resources) cell st1
        = (mkStore
             (<[cell := with_source v3
                          (VStr (interleave (literals src 0 (finditer src))
                                   (es1 ++ "" :: es2)%list
                                   (tail_after src 0 (finditer src))))]>
                (heap st3))
             (nb_cells st3), Ok cell))
  /\ (ms1 = [] -> ms2 = [] ->
      src = slice src 0 (m_start m) ++ wrap (m_group m) ++ drop (m_end m) src
      /\ process_cell true inherited (bind_self resources) cell st1
         = (mkStore
              (<[cell := with_source v
                           (VStr (slice src 0 (m_start m)
                                  ++ drop (m_end m) src))]> (heap st1))
              (nb_cells st1), Ok cell)).
Proof.
  intros Hv Hsrc Hms Hparse Hget.
  set (self := bind_self resources) in *. split; [|split].
  - intros st2 es1 Hrun1.
    assert (Hstrict :
      process_cell false inherited self cell st1
      = (st2, Raise (unrecognized name))).
    { apply (process_cell_raises _ _ _ _ _ _ v src); [done..|].
      rewrite Hms, fmap_app, run_expansions_app. unfold bind at 1.
      rewrite Hrun1. cbn [fmap list_fmap run_expansions].
      unfold bind, try_expand, catch.
      by rewrite (expand_macro_unrecognized _ _ _ _ _ _ _ Hparse Hget). }
    split; [done|]. intros st pre rest acc Hnb Hpre.
    apply preprocess_scan_raises. fold self. rewrite Hnb.
    rewrite (scan_cells_scanned _ _ _ _ _ _ _ _ _ _ Hpre).
    apply (scan_cells_process_raises _ _ _ _ _ _ _ _ _ v src); try done.
    apply dollar_not_sentinel, ScanFacts.finditer_nonempty_dollar.
    rewrite Hms. by destruct ms1.
  - intros st2 es1 st3 es2 v3 Hrun1 Hrun2 Hv3.
    apply (process_cell_result _ _ _ _ _ _ v); [done..| |done].
    rewrite Hms, fmap_app. cbn [fmap list_fmap].
    by apply (run_expansions_unknown inherited self cell _ _ _ name args
                es1 es2 st1 st2 st3).
  - intros -> ->. cbn [app] in Hms.
    pose proof (finditer_well_spanned src) as Hws. rewrite Hms in Hws.
    destruct Hws as (H0 & Hle & Hslice & _). split.
    + rewrite <- Hslice, <- !drop_slice by done. by rewrite drop_0.
    + rewrite (process_cell_result true inherited self cell st1 st1 v v src
                 [""]); try done.
      * rewrite Hms. cbn [literals tail_after interleave].
        by rewrite app_nil_l.
      * rewrite Hms.
        by apply (run_expansions_unknown inherited self cell [] [] _ name
                    args [] [] st1 st1 st1).
Qed.

Lemma unknown_macro_policy_witness :
  let st :=
    document ["price $5";
              "a #$EXERCISE_SETUP$ b #$NOPE(1)$ c $ d #$EXERCISE_URL(2)$"] in
  preprocess false no_inherited keep_all (Ok "master") documented_framing
    (resources_of ∅ "tutorial") st
  = (st, Raise (unrecognized "NOPE"))
  /\ process_cell true no_inherited (bind_self (resources_of ∅ "tutorial"))
       1 st
     = (mkStore
          [text_cell "markdown" "price $5";
           text_cell "markdown" "a  b  c $ d https://k.example/e2"]
          [0; 1], Ok 1).
Proof.
  intros st.
  pose proof (unknown_macro_policy no_inherited keep_all (Ok "master")
                documented_framing (resources_of ∅ "tutorial") 1 st
                (text_cell "markdown"
                   "a #$EXERCISE_SETUP$ b #$NOPE(1)$ c $ d #$EXERCISE_URL(2)$")
                "a #$EXERCISE_SETUP$ b #$NOPE(1)$ c $ d #$EXERCISE_URL(2)$"
                [mkMatch 2 19 "EXERCISE_SETUP"] (mkMatch 22 32 "NOPE(1)")
                [mkMatch 39 57 "EXERCISE_URL(2)"] "NOPE" ["1"]
                eq_refl eq_refl eq_refl eq_refl eq_refl)
    as (Hstrict & Hperm & _).
  split.
  - apply (proj2 (Hstrict st [""] eq_refl) st [0] [] [0] eq_refl).
    apply (scanned_cons false no_inherited keep_all _ 0 [] [] [0] st st st st
             (text_cell "markdown" "price $5") "price $5" 0 (Some 0));
      try reflexivity.
    apply scanned_nil.
  - apply (Hperm st [""] st ["https://k.example/e2"]
             (text_cell "markdown"
                "a #$EXERCISE_SETUP$ b #$NOPE(1)$ c $ d #$EXERCISE_URL(2)$"));
      reflexivity.
Defined.

(** Looking a name up in a table of names. *)
Lemma assoc_None {A} (k : string) (l : list (string * A)) :
  assoc k l = None <-> k ∉ (l.*1).
Proof.
  induction l as [|[k' x] l IH]; simpl.
  - split; [intros _; apply not_elem_of_nil | done].
  - rewrite not_elem_of_cons. destruct (String.eqb_spec k k') as [->|Hne].
    + split; [done | by intros [? _]].
    + rewrite IH. tauto.
Qed.

(** C3, as stated, fails: the set of names that resolve is not closed.
    [make_cell] is none of the twelve macro names and still resolves, to
    the static method of that name; expanding it ends in a [TypeError],
    not in the unrecognized-macro exception. *)
Lemma closed_macro_set_counterexample :
  ("make_cell" ∉
     ["EXERCISE_FORKING_URL"; "HIDE_INPUT"; "HIDE_OUTPUT"; "HIDE";
      "YOURTURN"; "TUT_BETA_NOTE"; "EXERCISE_SETUP"; "TUTORIAL_URL";
      "EXERCISE_URL"; "EXERCISE_PREAMBLE"; "KEEP_GOING";
      "END_OF_EMB_EXERCISE"])
  /\ getattr no_inherited (self_of ∅) "make_cell"
     = Some (A_method Meth_make_cell)
  /\ expand_macro no_inherited (self_of ∅) "make_cell" 0
       (document ["#$make_cell$"])
     = (document ["#$make_cell$"], Raise TypeError).
Proof.
  split; [|split; vm_compute; reflexivity].
  repeat (apply not_elem_of_cons; split; [by intros [=]|]).
  apply not_elem_of_nil.
Qed.

(** C3, amended. A macro name is looked up, by exact match, among the
    attributes of the preprocessor object. Each of the twelve macro names
    resolves: a reference with that name, and with the arguments the
    method takes, is expanded by running that method. A name fails to
    resolve exactly when it is none of: the twelve macro names, the eight
    other methods of the class, [track], [cfg], [lesson] while a lesson is
    bound, or an attribute inherited from the base class; and any
    reference whose name fails to resolve, with or without an argument,
    fails with the unrecognized-macro exception naming it. *)
Theorem macro_resolution
    (inherited : string -> option (list string -> loc -> M PyVal))
    (self : Self) :
  (forall ref cell st,
     (parse_macro ref = Ok ("EXERCISE_FORKING_URL", []) ->
      expand_macro inherited self ref cell st
      = lift (EXERCISE_FORKING_URL self None) st)
     /\ (forall a, parse_macro ref = Ok ("EXERCISE_FORKING_URL", [a]) ->
         expand_macro inherited self ref cell st
         = lift (EXERCISE_FORKING_URL self (Some a)) st)
     /\ (parse_macro ref = Ok ("HIDE_INPUT", []) ->
         expand_macro inherited self ref cell st = HIDE_INPUT cell st)
     /\ (parse_macro ref = Ok ("HIDE_OUTPUT", []) ->
         expand_macro inherited self ref cell st = HIDE_OUTPUT cell st)
     /\ (parse_macro ref = Ok ("HIDE", []) ->
         expand_macro inherited self ref cell st = HIDE cell st)
     /\ (parse_macro ref = Ok ("YOURTURN", []) ->
         expand_macro inherited self ref cell st = lift (YOURTURN self) st)
     /\ (forall a, parse_macro ref = Ok ("TUT_BETA_NOTE", [a]) ->
         expand_macro inherited self ref cell st
         = lift (TUT_BETA_NOTE a) st)
     /\ (parse_macro ref = Ok ("EXERCISE_SETUP", []) ->
         expand_macro inherited self ref cell st = lift EXERCISE_SETUP st)
     /\ (parse_macro ref = Ok ("TUTORIAL_URL", []) ->
         expand_macro inherited self ref cell st
         = lift (TUTORIAL_URL self None) st)
     /\ (forall a, parse_macro ref = Ok ("TUTORIAL_URL", [a]) ->
         expand_macro inherited self ref cell st
         = lift (TUTORIAL_URL self (Some a)) st)
     /\ (forall a, parse_macro ref = Ok ("EXERCISE_URL", [a]) ->
         expand_macro inherited self ref cell st
         = lift (EXERCISE_URL self a) st)
     /\ (parse_macro ref = Ok ("EXERCISE_PREAMBLE", []) ->
         expand_macro inherited self ref cell st
         = lift (EXERCISE_PREAMBLE self) st)
     /\ (parse_macro ref = Ok ("KEEP_GOING", []) ->
         expand_macro inherited self ref cell st = lift (KEEP_GOING self) st)
     /\ (forall a, parse_macro ref = Ok ("END_OF_EMB_EXERCISE", [a]) ->
         expand_macro inherited self ref cell st
         = lift (END_OF_EMB_EXERCISE self a) st))
  /\ (forall name,
        getattr inherited self name = None <->
        (name ∉
           ["EXERCISE_FORKING_URL"; "HIDE_INPUT"; "HIDE_OUTPUT"; "HIDE";
            "YOURTURN"; "TUT_BETA_NOTE"; "EXERCISE_SETUP"; "TUTORIAL_URL";
            "EXERCISE_URL"; "EXERCISE_PREAMBLE"; "KEEP_GOING";
            "END_OF_EMB_EXERCISE";
            "preprocess"; "add_header_and_footer"; "pip_install_lt_hack";
            "pip_install_hack"; "pip_install_cell"; "make_cell";
            "process_cell"; "expand_macro";
            "track"; "cfg"])
        /\ (name = "lesson" -> lesson self = None)
        /\ (name <> "lesson" -> inherited name = None))
  /\ (forall ref name args cell st,
        parse_macro ref = Ok (name, args) ->
        getattr inherited self name = None ->
        expand_macro inherited self ref cell st
        = (st, Raise (unrecognized name))).
Proof.
  split; [|split].
  - intros ref cell st.
    repeat split; intros; unfold expand_macro, expand_macro_with, bind, lift;
      match goal with H : parse_macro _ = _ |- _ => rewrite H end;
      reflexivity.
  - intros name.
    change (getattr inherited self name = None <->
            (name ∉ ((builtin_names.*1) ++ (method_names.*1)
                      ++ ["track"; "cfg"])%list)
            /\ (name = "lesson" -> lesson self = None)
            /\ (name <> "lesson" -> inherited name = None)).
    rewrite !not_elem_of_app, <- !assoc_None. unfold getattr.
    destruct (assoc name builtin_names) as [b|]; [by split; [|intros [[? _] _]]|].
    destruct (assoc name method_names) as [m|];
      [by split; [|intros [(_ & ? & _) _]]|].
    destruct (String.eqb_spec name "track") as [->|Htrack];
      [by split; [|intros [(_ & _ & Hn) _]; destruct Hn; set_solver]|].
    destruct (String.eqb_spec name "cfg") as [->|Hcfg];
      [by split; [|intros [(_ & _ & Hn) _]; destruct Hn; set_solver]|].
    cbn [orb]. destruct (String.eqb_spec name "lesson") as [->|Hlesson].
    + destruct (lesson self) as [l|].
      * split; [done | intros (_ & Hl & _)]. by specialize (Hl eq_refl).
      * split; [|done]. intros _. repeat split; try done.
        rewrite !not_elem_of_cons. by repeat split; try apply not_elem_of_nil.
    + destruct (inherited name) as [f|]; simpl.
      * split; [done | intros (_ & _ & Hi)]. by specialize (Hi Hlesson).
      * split; [|done]. intros _. repeat split; try done.
        rewrite !not_elem_of_cons. by repeat split; try apply not_elem_of_nil.
  - intros ref name args cell st Hp Hg.
    by apply (expand_macro_unrecognized inherited self ref name args).
Qed.

(** On a preprocessor whose base class has the attribute [enabled]: the
    reference [EXERCISE_URL( 2 )] runs the method on the argument [2];
    the name [exercise_url], in lower case, is no attribute, and the
    reference [exercise_url(2)] is reported as unrecognized; [enabled]
    and [lesson] are attributes. *)
Lemma macro_resolution_witness :
  expand_macro base_attrs (self_of ∅) "EXERCISE_URL( 2 )" 0 (document ["x"])
  = (document ["x"], Ok (VStr "https://k.example/e2"))
  /\ getattr base_attrs (self_of ∅) "exercise_url" = None
  /\ expand_macro base_attrs (self_of ∅) "exercise_url(2)" 0 (document ["x"])
     = (document ["x"], Raise (unrecognized "exercise_url"))
  /\ getattr base_attrs (self_of ∅) "enabled" <> None
  /\ getattr base_attrs (self_of ∅) "lesson" <> None.
Proof.
  pose proof (macro_resolution base_attrs (self_of ∅)) as (Hrun & Hnone & Hun).
  assert (Hlow : getattr base_attrs (self_of ∅) "exercise_url" = None).
  { apply Hnone. split; [|split; [by intros [=] | reflexivity]].
    repeat (apply not_elem_of_cons; split; [by intros [=]|]).
    apply not_elem_of_nil. }
  split; [|split; [exact Hlow | split; [|split]]].
  - destruct (Hrun "EXERCISE_URL( 2 )" 0 (document ["x"]))
      as (_ & _ & _ & _ & _ & _ & _ & _ & _ & _ & Hurl & _).
    rewrite (Hurl "2" eq_refl). reflexivity.
  - exact (Hun "exercise_url(2)" "exercise_url" ["2"] 0 (document ["x"])
             eq_refl Hlow).
  - intros Hg. apply Hnone in Hg as (_ & _ & Hi).
    by specialize (Hi ltac:(by intros [=])).
  - intros Hg. apply Hnone in Hg as (_ & Hl & _). by specialize (Hl eq_refl).
Defined.




(** C7. In daily mode [KEEP_GOING] returns a text that contains "another
    email tomorrow", whatever the lesson is (even none). Otherwise, when
    the current lesson has a next one, the text contains the topic of the
    next lesson and the URL of its tutorial when it has a tutorial, and
    the forking URL of its exercise when it has none. *)
Theorem KEEP_GOING_text (self : Self) :
  (cfg_truthy (cfg self) "daily" = true ->
   exists t, KEEP_GOING self = Ok (VStr t)
             /\ contains t "another email tomorrow")
  /\ (cfg_truthy (cfg self) "daily" = false ->
      forall l nl, lesson self = Some l -> next l = Some nl ->
        (forall tu, tutorial nl = Some tu ->
           exists t, KEEP_GOING self = Ok (VStr t)
                     /\ contains t (topic nl) /\ contains t (url tu))
        /\ (tutorial nl = None ->
            forall ex, exercise nl = Some ex ->
              exists t, KEEP_GOING self = Ok (VStr t)
                        /\ contains t (topic nl)
                        /\ contains t (forking_url ex))).
Proof.
  unfold KEEP_GOING. split.
  - intros ->. eexists; split; [reflexivity|].
    by exists (NL ++ "**You'll get "),
              " so you can keep learning. See you then.**".
  - intros -> l nl Hl Hn. unfold the_lesson, next_lesson_of.
    rewrite Hl. cbn [res_bind]. rewrite Hn. cbn [res_bind].
    split.
    + intros tu ->. cbn [res_bind]. eexists; split; [reflexivity|]. split.
      * exists ("# Keep Going" ++ NL ++ NL ++ "You are ready for **["),
               ("](" ++ url tu ++ ").**" ++ NL).
        by rewrite !app_assoc.
      * exists ("# Keep Going" ++ NL ++ NL ++ "You are ready for **["
                ++ topic nl ++ "]("), (").**" ++ NL).
        by rewrite !app_assoc.
    + intros -> ex Hex. unfold exercise_forking_url. rewrite Hex.
      cbn [res_bind]. eexists; split; [reflexivity|]. split.
      * exists ("# Keep Going" ++ NL ++ NL ++ "You are ready for **["),
               ("](" ++ forking_url ex ++ ").**" ++ NL).
        by rewrite !app_assoc.
      * exists ("# Keep Going" ++ NL ++ NL ++ "You are ready for **["
                ++ topic nl ++ "]("), (").**" ++ NL).
        by rewrite !app_assoc.
Qed.

Lemma KEEP_GOING_text_witness :
  (exists t, KEEP_GOING (self_of daily_cfg) = Ok (VStr t)
             /\ contains t "another email tomorrow")
  /\ (exists t, KEEP_GOING (self_of ∅) = Ok (VStr t)
                /\ contains t "Functions"
                /\ contains t "https://k.example/t2").
Proof.
  split.
  - exact (proj1 (KEEP_GOING_text (self_of daily_cfg)) eq_refl).
  - exact (proj1 (proj2 (KEEP_GOING_text (self_of ∅)) eq_refl
                    lesson1 lesson2 eq_refl eq_refl)
             (mkTutorial "https://k.example/t2") eq_refl).
Defined.

Example KEEP_GOING_values :
  KEEP_GOING (self_of ∅)
  = Ok (VStr ("# Keep Going" ++ NL ++ NL
              ++ "You are ready for **[Functions](https://k.example/t2).**"
              ++ NL))
  /\ KEEP_GOING (mkSelf python_track (Some lesson2) ∅)
     = Raise (AttributeError "next")
  /\ KEEP_GOING (mkSelf python_track (Some lesson2) daily_cfg)
     = Ok (VStr (NL ++ "**You'll get another email tomorrow so you can keep learning. See you then.**")).
Proof. repeat split; vm_compute; reflexivity. Qed.

(** ** The scan over the cells *)

Section Scan.

Variable IGNORE_UNKNOWN_MACROS : bool.
Variable inherited : string -> option (list string -> loc -> M PyVal).
Variable macroer : gmap string PyVal -> loc -> M (option loc).

#[local] Abbreviation scan_cells :=
  (scan_cells IGNORE_UNKNOWN_MACROS inherited macroer).

(** The scan never looks past a cell that holds the token when its turn
    comes. *)
Lemma scan_cells_sentinel (self : Self) (pre : list loc) (s : loc)
    (post : list loc) (acc : list loc) (st : Store) :
  is_sentinel (fst (scan_cells self pre acc st)) s ->
  scan_cells self (pre ++ s :: post) acc st = scan_cells self pre acc st.
Proof.
  revert acc st; induction pre as [|c pre IH]; intros acc st.
  - intros (v & t & Hv & Hsrc & Ht). cbn in Hv |- *.
    unfold bind, get_source, get_cell, bind. rewrite Hv, Hsrc.
    unfold ret at 1. by rewrite Ht.
  - cbn [app LessonPreprocessor.scan_cells]. unfold bind at 1 4 7.
    destruct (get_source c st) as [st1 [[| | |t| |]|e]]; try done.
    destruct (String.eqb (strip t) "#%%RM_BELOW%%"); [done|].
    unfold bind at 1 3 5.
    destruct (process_cell _ _ self c st1) as [st2 [c1|e]]; [|done].
    unfold bind.
    destruct (macroer (cfg self) c1 st2) as [st3 [[c2|]|e]]; [| |done];
      apply IH.
Qed.

(** A text without [$] that is not the token is kept as it is, under a
    resolver that keeps every cell. *)
Lemma scan_cells_plain_step (self : Self) (c : loc) (rest acc : list loc)
    (st : Store) (v : Cell) (t : string) :
  heap st !! c = Some v -> source v = Some (VStr t) ->
  has_char "$" t = false ->
  String.eqb (strip t) "#%%RM_BELOW%%" = false ->
  LessonPreprocessor.scan_cells IGNORE_UNKNOWN_MACROS inherited keep_all
    self (c :: rest) acc st
  = LessonPreprocessor.scan_cells IGNORE_UNKNOWN_MACROS inherited keep_all
      self rest (acc ++ [c]) st.
Proof.
  intros Hv Hsrc Ht Hne. cbn [LessonPreprocessor.scan_cells].
  unfold bind at 1. unfold get_source, get_cell, bind at 1.
  rewrite Hv, Hsrc. unfold ret at 1. rewrite Hne.
  unfold bind at 1.
  rewrite (process_cell_no_match _ _ _ _ _ v t Hv Hsrc)
    by (by apply finditer_from_no_dollar).
  done.
Qed.

End Scan.

(** C4. The cells are scanned in their order. If, when the cells before
    it have been scanned, a cell holds a text whose stripped form is
    [#%%RM_BELOW%%], the scan ends there: the outcome, store and collected
    cells alike, is that of scanning the cells before it alone, so that
    cell and every later one are dropped without being processed. In
    particular, for cells [A, B, "#%%RM_BELOW%%", C, D], with [A] and [B]
    plain texts and a resolver that keeps them, the cells collected are
    exactly [A] and [B]. *)
Theorem truncation_at_sentinel
    (IGNORE_UNKNOWN_MACROS : bool)
    (inherited : string -> option (list string -> loc -> M PyVal))
    (macroer : gmap string PyVal -> loc -> M (option loc))
    (self : Self) (pre : list loc) (s : loc) (post acc : list loc)
    (st : Store) :
  (is_sentinel
     (fst (scan_cells IGNORE_UNKNOWN_MACROS inherited macroer self pre acc st))
     s ->
   scan_cells IGNORE_UNKNOWN_MACROS inherited macroer self
     (pre ++ s :: post) acc st
   = scan_cells IGNORE_UNKNOWN_MACROS inherited macroer self pre acc st)
  /\ (forall a b c d : string,
        has_char "$" a = false -> has_char "$" b = false ->
        String.eqb (strip a) "#%%RM_BELOW%%" = false ->
        String.eqb (strip b) "#%%RM_BELOW%%" = false ->
        scan_cells IGNORE_UNKNOWN_MACROS inherited keep_all self
          [0; 1; 2; 3; 4] [] (document [a; b; "#%%RM_BELOW%%"; c; d])
        = (document [a; b; "#%%RM_BELOW%%"; c; d], Ok [0; 1])).
Proof.
  split; [apply scan_cells_sentinel|].
  intros a b c d Ha Hb Hna Hnb.
  rewrite (scan_cells_sentinel _ _ _ self [0; 1] 2 [3; 4]).
  - rewrite (scan_cells_plain_step _ _ _ _ _ _ _
               (text_cell "markdown" a) a) by done.
    by rewrite (scan_cells_plain_step _ _ _ _ _ _ _
                  (text_cell "markdown" b) b) by done.
  - rewrite (scan_cells_plain_step _ _ _ _ _ _ _
               (text_cell "markdown" a) a) by done.
    rewrite (scan_cells_plain_step _ _ _ _ _ _ _
               (text_cell "markdown" b) b) by done.
    by exists (text_cell "markdown" "#%%RM_BELOW%%"), "#%%RM_BELOW%%".
Qed.

Lemma truncation_at_sentinel_witness :
  scan_cells false no_inherited keep_all (self_of ∅) ([0; 1] ++ 2 :: [3; 4])
    [] (document ["A"; "B"; " #%%RM_BELOW%%  "; "#$NO_SUCH$"; "D"])
  = scan_cells false no_inherited keep_all (self_of ∅) [0; 1]
      [] (document ["A"; "B"; " #%%RM_BELOW%%  "; "#$NO_SUCH$"; "D"]).
Proof.
  apply (proj1 (truncation_at_sentinel false no_inherited keep_all (self_of ∅)
                  [0; 1] 2 [3; 4] []
                  (document ["A"; "B"; " #%%RM_BELOW%%  "; "#$NO_SUCH$";
                             "D"]))).
  exists (text_cell "markdown" " #%%RM_BELOW%%  "), " #%%RM_BELOW%%  ".
  repeat split; vm_compute; reflexivity.
Defined.

Example truncation_example :
  scan_cells false no_inherited keep_all (self_of ∅) [0; 1; 2; 3; 4] []
    (document ["A"; "B"; "#%%RM_BELOW%%"; "C"; "D"])
  = (document ["A"; "B"; "#%%RM_BELOW%%"; "C"; "D"], Ok [0; 1]).
Proof. vm_compute. reflexivity. Qed.




(** ** Framing and bootstrap cells *)

(** C1: what the code does. Line 54 calls [add_header_and_footer] and
    drops what it returns, and line 56 installs the list the scan has
    collected. So whatever the helper does, no pass installs a header or
    a footer. With [daily] absent or falsy: if the helper raises, the
    pass raises the same, at the store the helper left, and line 56 is
    not reached; if the helper returns, whatever list it returns, the
    cells installed (no bootstrap cell being due) are exactly the
    survivors of the scan, as many as they are and not two more. With
    [daily] truthy the helper is not called and the cells installed are
    the survivors too. *)
Theorem framing_result_discarded
    (IGNORE_UNKNOWN_MACROS : bool)
    (inherited : string -> option (list string -> loc -> M PyVal))
    (macroer : gmap string PyVal -> loc -> M (option loc))
    (git_branch : Res string)
    (add_header_and_footer : Self -> list loc -> M (list loc))
    (resources : Resources) (st st1 : Store) (new_cells : list loc) :
  scan_cells IGNORE_UNKNOWN_MACROS inherited macroer (bind_self resources)
    (nb_cells st) [] st = (st1, Ok new_cells) ->
  (cfg_truthy (track_cfg resources) "daily" = false ->
   (forall st2 e,
      add_header_and_footer (bind_self resources) new_cells st1
      = (st2, Raise e) ->
      preprocess IGNORE_UNKNOWN_MACROS inherited macroer git_branch
        add_header_and_footer resources st = (st2, Raise e))
   /\ (forall st2 framed,
         add_header_and_footer (bind_self resources) new_cells st1
         = (st2, Ok framed) ->
         cfg_truthy (track_cfg resources) "development"
           && String.eqb (type (nb_meta resources)) "exercise" = false ->
         preprocess IGNORE_UNKNOWN_MACROS inherited macroer git_branch
           add_header_and_footer resources st
         = (mkStore (heap st2) new_cells, Ok tt)
         /\ length (nb_cells (mkStore (heap st2) new_cells))
            <> length new_cells + 2))
  /\ (cfg_truthy (track_cfg resources) "daily" = true ->
      cfg_truthy (track_cfg resources) "development"
        && String.eqb (type (nb_meta resources)) "exercise" = false ->
      preprocess IGNORE_UNKNOWN_MACROS inherited macroer git_branch
        add_header_and_footer resources st
      = (mkStore (heap st1) new_cells, Ok tt)).
Proof.
  intros Hscan. split.
  - intros Hdaily. split.
    + intros st2 e Hframe. unfold preprocess.
      unfold bind at 1, get_nb_cells. unfold bind at 1. rewrite Hscan.
      cbn [bind_self cfg] in *. rewrite Hdaily. cbn [negb].
      unfold bind at 1. unfold bind at 1. by rewrite Hframe.
    + intros st2 framed Hframe Hboot. split; [|cbn [nb_cells]; lia].
      unfold preprocess.
      unfold bind at 1, get_nb_cells. unfold bind at 1. rewrite Hscan.
      cbn [bind_self cfg] in *. rewrite Hdaily, Hboot. cbn [negb].
      unfold bind at 1. unfold bind at 1. by rewrite Hframe.
  - intros Hdaily Hboot. unfold preprocess.
    unfold bind at 1, get_nb_cells. unfold bind at 1. rewrite Hscan.
    cbn [bind_self cfg]. by rewrite Hdaily, Hboot.
Qed.

(** A helper that does what the docstring says builds the two cells and
    returns the framed list; the pass installs the one survivor. *)
Lemma framing_result_discarded_witness :
  preprocess false no_inherited keep_all (Ok "master") documented_framing
    (resources_of ∅ "tutorial") (document ["Hello"])
  = (mkStore
       [text_cell "markdown" "Hello";
        text_cell "markdown"
          ("**[Python Course Home Page](https://www.kaggle.com/learn/python)**"
           ++ NL ++ "---");
        text_cell "markdown"
          ("---" ++ NL
           ++ "**[Python Course Home Page](https://www.kaggle.com/learn/python)**")]
       [0], Ok tt)
  /\ preprocess false no_inherited keep_all (Ok "master")
       (fun _ _ => raise (NameError "make_cell"))
       (resources_of ∅ "tutorial") (document ["Hello"])
     = (document ["Hello"], Raise (NameError "make_cell"))
  /\ preprocess false no_inherited keep_all (Ok "master") documented_framing
       (resources_of daily_cfg "tutorial")
       (document ["Hello"; "#%%RM_BELOW%%"; "notes"])
     = (mkStore (heap (document ["Hello"; "#%%RM_BELOW%%"; "notes"])) [0],
        Ok tt).
Proof.
  split; [|split].
  - exact (proj1
             (proj2 (proj1 (framing_result_discarded false no_inherited
                              keep_all (Ok "master") documented_framing
                              (resources_of ∅ "tutorial") (document ["Hello"])
                              (document ["Hello"]) [0] eq_refl)
                       eq_refl)
                _ [1; 0; 2] eq_refl eq_refl)).
  - exact (proj1 (proj1 (framing_result_discarded false no_inherited
                           keep_all (Ok "master")
                           (fun _ _ => raise (NameError "make_cell"))
                           (resources_of ∅ "tutorial") (document ["Hello"])
                           (document ["Hello"]) [0] eq_refl)
                    eq_refl)
             (document ["Hello"]) (NameError "make_cell") eq_refl).
  - exact (proj2 (framing_result_discarded false no_inherited keep_all
                    (Ok "master") documented_framing
                    (resources_of daily_cfg "tutorial")
                    (document ["Hello"; "#%%RM_BELOW%%"; "notes"])
                    (document ["Hello"; "#%%RM_BELOW%%"; "notes"]) [0]
                    eq_refl)
             eq_refl eq_refl).
Defined.

(** The names [make_cell] (lines 69 and 70) and [footer_cells] (line 71)
    are bound neither in the method nor in the module. *)
Example framing_names_unbound (st : Store) :
  global_name "make_cell" st = (st, Raise (NameError "make_cell"))
  /\ global_name "footer_cells" st = (st, Raise (NameError "footer_cells")).
Proof. split; reflexivity. Qed.

(** C8: what the code does. In a pass with [development] truthy and the
    type ["exercise"] that reaches the bootstrap step ([daily] truthy, the
    scan succeeds, the branch is known), two cells are put in front of
    the collected ones, the install cell and then the path cell; but
    [make_cell] drops its first dictionary for ["code"], so neither cell
    has a [cell_type] (or a [metadata]) key: they are not code cells. *)
Theorem bootstrap_cells_lack_type
    (IGNORE_UNKNOWN_MACROS : bool)
    (inherited : string -> option (list string -> loc -> M PyVal))
    (macroer : gmap string PyVal -> loc -> M (option loc))
    (add_header_and_footer : Self -> list loc -> M (list loc))
    (branch : string) (resources : Resources) (st st1 : Store)
    (new_cells : list loc) :
  cfg_truthy (track_cfg resources) "development" = true ->
  type (nb_meta resources) = "exercise" ->
  cfg_truthy (track_cfg resources) "daily" = true ->
  scan_cells IGNORE_UNKNOWN_MACROS inherited macroer (bind_self resources)
    (nb_cells st) [] st = (st1, Ok new_cells) ->
  let n := length (heap st1) in
  let install :=
    mkCell None None
      (Some (VList ["!pip install -U -t /kaggle/working/ "
                    ++ "git+https://github.com/Kaggle/learntools.git@"
                    ++ branch]))
      (Some VNone) (Some (VList [])) in
  let syspath :=
    mkCell None None
      (Some (VList ["import sys" ++ NL; "sys.path.append('/kaggle/working')"]))
      (Some VNone) (Some (VList [])) in
  preprocess IGNORE_UNKNOWN_MACROS inherited macroer (Ok branch)
    add_header_and_footer resources st
  = (mkStore (heap st1 ++ [install; syspath]) (n :: S n :: new_cells), Ok tt)
  /\ cell_type install = None /\ cell_type syspath = None.
Proof.
  intros Hdev Hty Hdaily Hscan n install syspath.
  split; [|done]. unfold preprocess. unfold bind at 1, get_nb_cells.
  unfold bind at 1. rewrite Hscan.
  cbn [bind_self cfg]. rewrite Hdaily, Hdev, Hty. cbn [negb].
  unfold bind at 1. unfold ret at 1. unfold bind at 1.
  unfold set_nb_cells at 1. cbn [heap nb_cells].
  unfold pip_install_lt_hack, bind, ret, pip_install_hack, bind,
    pip_install_cell, make_cell, alloc, get_nb_cells, set_nb_cells, ret.
  cbn. rewrite List.length_app, <- List.app_assoc. cbn [length app].
  subst n install syspath. unfold with_source. cbn.
  by rewrite Nat.add_1_r.
Qed.

Lemma bootstrap_cells_lack_type_witness :
  preprocess false no_inherited keep_all (Ok "dev") documented_framing
    (resources_of daily_dev_cfg "exercise") (document ["Try it"])
  = (mkStore
       ([text_cell "markdown" "Try it"]
        ++ [mkCell None None
              (Some (VList ["!pip install -U -t /kaggle/working/ "
                            ++ "git+https://github.com/Kaggle/learntools.git@"
                            ++ "dev"]))
              (Some VNone) (Some (VList []));
            mkCell None None
              (Some (VList ["import sys" ++ NL;
                            "sys.path.append('/kaggle/working')"]))
              (Some VNone) (Some (VList []))])
       [1; 2; 0], Ok tt).
Proof.
  exact (proj1 (bootstrap_cells_lack_type false no_inherited keep_all
                  documented_framing "dev"
                  (resources_of daily_dev_cfg "exercise")
                  (document ["Try it"]) (document ["Try it"]) [0]
                  eq_refl eq_refl eq_refl eq_refl)).
Defined.

(** ** The geocoder *)

Module GeospatialFacts.

Import Geospatial.

Lemma index_not_in (x : string) (l : list string) :
  x ∉ l -> index x l = Raise ValueError.
Proof.
  induction l as [|y r IH]; [done|].
  intros [Hxy Hr]%not_elem_of_cons. simpl.
  destruct (String.eqb_spec y x) as [->|_]; [done|]. by rewrite IH.
Qed.

Lemma index_all_addresses (i : nat) (address : string) :
  all_addresses !! i = Some address -> index address all_addresses = Ok i.
Proof.
  unfold all_addresses.
  destruct i as [|[|[|[|[|i]]]]]; simpl; intros [= <-]; reflexivity.
Qed.

Lemma index_lookup (x : string) (l : list string) (i : nat) :
  index x l = Ok i -> l !! i = Some x.
Proof.
  revert i. induction l as [|y r IH]; intros i; simpl; [done|].
  destruct (String.eqb_spec y x) as [->|_].
  - by intros [= <-].
  - destruct (index x r) as [j|e]; simpl; [|done].
    intros [= <-]. by apply IH.
Qed.

End GeospatialFacts.

(** C10, as stated, fails: a listed address whose shapefile loads does
    not always give a point. The point is built from the two coordinate
    columns of the frame, and when that construction raises (or a column
    cannot be read) the bare [except] turns the failure into [None]. *)
Lemma geocode_listed_loaded_counterexample :
  let read_file : string -> Res unit := fun _ => Ok tt in
  let column (v : Z) : unit -> Res (list Z) := fun _ => Ok [v] in
  let new_Point : list Z -> list Z -> Res (Z * Z) :=
    fun _ _ => Raise ValueError in
  Geospatial.all_addresses !! 0 = Some "2224 Shattuck Avenue Berkeley CA"
  /\ read_file (Geospatial.shapefile 0) = Ok tt
  /\ Geospatial.geocode unit (list Z) (Z * Z) read_file
       (column 37%Z) (column (-122)%Z) new_Point
       "2224 Shattuck Avenue Berkeley CA"
     = Ok None.
Proof. repeat split; reflexivity. Qed.

(** C10, amended. [geocode] never raises. It returns a point exactly
    when the address is at some position [i] of [all_addresses], the
    shapefile [add_i.shp] loads, both coordinate columns of the frame
    can be read and the construction of the point from them succeeds; the
    point returned is the one constructed. In every other case, an
    address outside the list among them, it returns [None]. *)
Theorem geocode_point_or_none
    (GeoDataFrame Series Point : Type)
    (read_file : string -> Res GeoDataFrame)
    (geometry_y geometry_x : GeoDataFrame -> Res Series)
    (new_Point : Series -> Series -> Res Point) (address : string) :
  let geocode :=
    Geospatial.geocode GeoDataFrame Series Point read_file geometry_y
      geometry_x new_Point in
  (forall p,
     geocode address = Ok (Some p) <->
     exists i gdf y x,
       Geospatial.all_addresses !! i = Some address
       /\ read_file (Geospatial.shapefile i) = Ok gdf
       /\ geometry_y gdf = Ok y /\ geometry_x gdf = Ok x
       /\ new_Point y x = Ok p)
  /\ ((forall p, geocode address <> Ok (Some p)) -> geocode address = Ok None)
  /\ (address ∉ Geospatial.all_addresses -> geocode address = Ok None).
Proof.
  intros geocode. subst geocode. unfold Geospatial.geocode.
  split; [|split].
  - intros p. split.
    + unfold Geospatial.geocode_try.
      destruct (Geospatial.index address Geospatial.all_addresses)
        as [i|e] eqn:Hi; [|done].
      cbn [res_bind].
      destruct (read_file (Geospatial.shapefile i)) as [gdf|e] eqn:Hread;
        [|done].
      cbn [res_bind].
      destruct (geometry_y gdf) as [y|e] eqn:Hy; [|done]. cbn [res_bind].
      destruct (geometry_x gdf) as [x|e] eqn:Hx; [|done]. cbn [res_bind].
      destruct (new_Point y x) as [q|e] eqn:Hp; [|done].
      intros [= <-]. exists i, gdf, y, x.
      by split; [apply GeospatialFacts.index_lookup|].
    + intros (i & gdf & y & x & Hi & Hread & Hy & Hx & Hp).
      unfold Geospatial.geocode_try.
      rewrite (GeospatialFacts.index_all_addresses _ _ Hi). cbn [res_bind].
      rewrite Hread. cbn [res_bind]. rewrite Hy. cbn [res_bind].
      rewrite Hx. cbn [res_bind]. by rewrite Hp.
  - intros Hno.
    destruct (Geospatial.geocode_try _ _ _ _ _ _ _ address) as [p|e];
      [|done].
    by destruct (Hno p).
  - intros Hnot. unfold Geospatial.geocode_try.
    by rewrite (GeospatialFacts.index_not_in _ _ Hnot).
Qed.

Lemma geocode_point_or_none_witness :
  Geospatial.geocode unit Z (Z * Z)
    (fun path =>
       if String.eqb path (Geospatial.shapefile 2) then Ok tt
       else Raise (OtherError "no such file"))
    (fun _ => Ok 37%Z) (fun _ => Ok (-122)%Z)
    (fun lat lon => Ok (lat, lon))
    "1444 Shattuck Place Berkeley CA"
  = Ok (Some (37, -122)%Z).
Proof.
  apply (proj1 (geocode_point_or_none unit Z (Z * Z)
                  (fun path =>
                     if String.eqb path (Geospatial.shapefile 2) then Ok tt
                     else Raise (OtherError "no such file"))
                  (fun _ => Ok 37%Z) (fun _ => Ok (-122)%Z)
                  (fun lat lon => Ok (lat, lon))
                  "1444 Shattuck Place Berkeley CA")).
  exists 2, tt, 37%Z, (-122)%Z. repeat split; reflexivity.
Defined.

Example geocode_examples :
  let geocode :=
    Geospatial.geocode unit Z (Z * Z)
      (fun path =>
         if String.eqb path (Geospatial.shapefile 2) then Ok tt
         else Raise (OtherError "no such file"))
      (fun _ => Ok 37%Z) (fun _ => Ok (-122)%Z)
      (fun lat lon => Ok (lat, lon)) in
  geocode "1 Main Street" = Ok None
  /\ geocode "2224 Shattuck Avenue Berkeley CA" = Ok None
  /\ geocode "1444 Shattuck Place Berkeley CA" = Ok (Some (37, -122)%Z).
Proof. repeat split; vm_compute; reflexivity. Qed.

(** * Further properties of the code *)

Import Notions.

(** ** Parsing a reference *)

Lemma split_nonempty (c : ascii) (s : string) : split c s <> [].
Proof.
  induction s as [|d s IH]; simpl; [done|].
  destruct (Ascii.eqb d c); [done|]. by destruct (split c s).
Qed.

Lemma split_one (c : ascii) (s b : string) :
  split c s = [b] -> s = b /\ has_char c b = false.
Proof.
  revert b; induction s as [|d s IH]; intros b; simpl.
  - by intros [= <-].
  - destruct (Ascii.eqb d c) eqn:Hd.
    + intros [= _ H]. by apply split_nonempty in H.
    + destruct (split c s) as [|p ps] eqn:Hs;
        [by apply split_nonempty in Hs|].
      intros [= <- ->]. destruct (IH p eq_refl) as [-> Hp].
      split; [done|]. simpl. by rewrite Hd.
Qed.

Lemma split_two (c : ascii) (s a b : string) :
  split c s = [a; b] ->
  s = a ++ String c b /\ has_char c a = false /\ has_char c b = false.
Proof.
  revert a; induction s as [|d s IH]; intros a; simpl; [done|].
  destruct (Ascii.eqb d c) eqn:Hd.
  - intros [= <- H]. apply split_one in H as [-> Hb].
    apply Ascii.eqb_eq in Hd as ->. by rewrite app_nil_l.
  - destruct (split c s) as [|p ps] eqn:Hs;
      [by apply split_nonempty in Hs|].
    intros [= <- ->]. destruct (IH p eq_refl) as (-> & Hp & Hb).
    split; [reflexivity|]. split; [|done]. simpl. by rewrite Hd.
Qed.

Lemma endswith_init (s : string) (c : ascii) :
  endswith_char s c = true -> s = init s ++ String c "".
Proof.
  unfold endswith_char. induction s as [|d s IH]; [done|].
  destruct s as [|e s].
  - simpl. intros ->%Ascii.eqb_eq. done.
  - intros H. cbn [init]. rewrite app_cons. f_equal. by apply IH.
Qed.

(** X1. What [expand_macro] makes of the text of a reference: a text that
    does not end with [)] is a name without arguments; otherwise it must
    be [NAME(ARG)] with no further [(], and the argument list is [ARG]
    stripped, or empty when that is blank; every other text is a
    [ValueError]. *)
Theorem parse_macro_shape (macro name : string) (args : list string) :
  (parse_macro macro = Ok (name, args) <->
   (endswith_char macro ")" = false /\ name = macro /\ args = [])
   \/ (exists argstr,
         macro = name ++ "(" ++ argstr ++ ")"
         /\ has_char "(" name = false /\ has_char "(" argstr = false
         /\ args = if String.eqb (strip argstr) "" then []
                   else [strip argstr]))
  /\ (forall e, parse_macro macro = Raise e -> e = ValueError)
  /\ (endswith_char macro ")" = true -> has_char "(" macro = false ->
      parse_macro macro = Raise ValueError).
Proof.
  split; [split|split].
  - unfold parse_macro. destruct (endswith_char macro ")") eqn:Hend.
    + destruct (split "(" (init macro)) as [|a [|b [|? ?]]] eqn:Hs; try done.
      intros [= <- <-]. right. apply split_two in Hs as (Hi & Ha & Hb).
      exists b. repeat split; try done.
      rewrite (endswith_init _ _ Hend), Hi. by rewrite !app_assoc.
    + intros [= <- <-]. by left.
  - intros [(Hend & -> & ->)|(argstr & -> & Hn & Ha & ->)].
    + unfold parse_macro. by rewrite Hend.
    + by apply parse_macro_call.
  - unfold parse_macro. destruct (endswith_char macro ")"); [|done].
    destruct (split "(" (init macro)) as [|a [|b [|? ?]]]; try done;
      by intros e [= <-].
  - intros Hend Hno. unfold parse_macro. rewrite Hend.
    by rewrite (split_no_sep _ _ (has_char_init _ _ Hno)).
Qed.

Lemma parse_macro_shape_witness :
  parse_macro "FOO)" = Raise ValueError
  /\ parse_macro "EXERCISE_URL( 2 )" = Ok ("EXERCISE_URL", ["2"]).
Proof.
  split.
  - exact (proj2 (proj2 (parse_macro_shape "FOO)" "" [])) eq_refl eq_refl).
  - apply (proj1 (parse_macro_shape "EXERCISE_URL( 2 )" "EXERCISE_URL" ["2"])).
    right. exists " 2 ". repeat split; reflexivity.
Defined.

(** ** The references the dispatcher finds *)

Lemma finditer_from_bounds (s : string) (skip pos : nat) :
  Forall (fun m =>
            m_group m <> "" /\ has_char "$" (m_group m) = false
            /\ m_end m = m_start m + (String.length (m_group m) + 3)
            /\ pos <= m_start m /\ m_end m <= pos + String.length s)
         (finditer_from skip pos s).
Proof.
  revert skip pos; induction s as [|c r IH]; intros skip pos; [constructor|].
  assert (Hweak : forall k,
            Forall (fun m =>
                      m_group m <> "" /\ has_char "$" (m_group m) = false
                      /\ m_end m = m_start m + (String.length (m_group m) + 3)
                      /\ pos <= m_start m
                      /\ m_end m <= pos + String.length (String c r))
                   (finditer_from k (S pos) r)).
  { intros k. eapply Forall_impl; [apply (IH k (S pos))|].
    intros m (? & ? & ? & ? & ?). cbn [String.length].
    repeat split; try done; lia. }
  cbn [finditer_from]. destruct skip as [|k]; [|apply Hweak].
  destruct (match_at (String c r)) as [g|] eqn:Hm; [|apply Hweak].
  constructor; [|apply Hweak].
  apply match_at_Some in Hm as (Hne & Hg & rest & Hs).
  cbn [m_start m_end m_group]. repeat split; try done.
  rewrite Hs, length_app, length_wrap. lia.
Qed.

(** X2. The references [process_cell] finds in a text lie from left to
    right without overlap; each spans a piece of the text of the form
    [#$g$] whose inner text [g] is not empty and has no [$], and lies
    within the text. *)
Theorem finditer_sound (src : string) :
  well_spanned src 0 (finditer src)
  /\ Forall (fun m =>
               m_group m <> "" /\ has_char "$" (m_group m) = false
               /\ m_end m = m_start m + (String.length (m_group m) + 3)
               /\ m_end m <= String.length src)
            (finditer src).
Proof.
  split; [apply finditer_well_spanned|].
  eapply Forall_impl; [apply (finditer_from_bounds src 0 0)|].
  intros m (? & ? & ? & ? & ?). repeat split; try done.
Qed.

(** ** The macros that set flags *)

Lemma set_metadata_flag_ok (cell : loc) (st : Store) (v : Cell)
    (md : gmap string PyVal) (key : string) :
  heap st !! cell = Some v -> metadata v = Some md ->
  set_metadata_flag cell key st
  = (mkStore (<[cell := mkCell (cell_type v) (Some (<[key := VBool true]> md))
                               (source v) (execution_count v) (outputs v)]>
                (heap st)) (nb_cells st), Ok tt).
Proof.
  intros Hv Hmd. unfold set_metadata_flag, bind, get_cell, put_cell.
  by rewrite Hv, Hmd.
Qed.

Lemma HIDE_ok (cell : loc) (st : Store) (v : Cell) (md : gmap string PyVal) :
  heap st !! cell = Some v -> metadata v = Some md ->
  HIDE cell st
  = (mkStore
       (<[cell := mkCell (cell_type v)
                    (Some (<["_kg_hide-output" := VBool true]>
                             (<["_kg_hide-input" := VBool true]> md)))
                    (source v) (execution_count v) (outputs v)]> (heap st))
       (nb_cells st), Ok VNone).
Proof.
  intros Hv Hmd. unfold HIDE, HIDE_INPUT, HIDE_OUTPUT.
  unfold bind at 1. unfold bind at 1.
  rewrite (set_metadata_flag_ok _ _ _ _ _ Hv Hmd). unfold ret at 1.
  unfold bind at 1. unfold bind at 1.
  erewrite set_metadata_flag_ok;
    [| cbn [heap]; apply list_lookup_insert_eq; by eapply lookup_lt_Some
     | reflexivity].
  unfold ret. cbn [heap nb_cells cell_type source execution_count outputs].
  by rewrite list_insert_insert_eq.
Qed.

(** X3. A reference [#$HIDE$] in a cell whose text has no other [$]: the
    dispatcher removes the reference from the text and sets the two flags
    [_kg_hide-input] and [_kg_hide-output] in the metadata of that cell,
    keeping the other metadata keys and every other cell. On a cell
    without a [metadata] key it raises [KeyError] and changes nothing. *)
Theorem HIDE_reference
    (IGNORE_UNKNOWN_MACROS : bool)
    (inherited : string -> option (list string -> loc -> M PyVal))
    (self : Self) (cell : loc) (st : Store) (v : Cell) (pre post : string) :
  heap st !! cell = Some v ->
  source v = Some (VStr (pre ++ wrap "HIDE" ++ post)) ->
  has_char "$" pre = false -> has_char "$" post = false ->
  (forall md, metadata v = Some md ->
     process_cell IGNORE_UNKNOWN_MACROS inherited self cell st
     = (mkStore
          (<[cell := mkCell (cell_type v)
                       (Some (<["_kg_hide-output" := VBool true]>
                                (<["_kg_hide-input" := VBool true]> md)))
                       (Some (VStr (pre ++ post)))
                       (execution_count v) (outputs v)]> (heap st))
          (nb_cells st), Ok cell))
  /\ (metadata v = None ->
      process_cell IGNORE_UNKNOWN_MACROS inherited self cell st
      = (st, Raise (KeyError "metadata"))).
Proof.
  intros Hv Hsrc Hpre Hpost. split.
  - intros md Hmd.
    rewrite (process_cell_refines _ _ _ _ _ _ _ Hv Hsrc).
    unfold process_cell_spec. rewrite finditer_first by done.
    rewrite finditer_from_no_dollar by done.
    cbn [fmap list_fmap m_group m_start m_end
         LessonPreprocessor.run_expansions literals tail_after interleave].
    unfold bind at 1. unfold bind at 1.
    unfold try_expand, catch, expand_macro, expand_macro_with.
    unfold bind at 1. unfold lift at 1.
    change (parse_macro "HIDE") with (Ok ("HIDE", @nil string)). cbn [fst snd].
    change (getattr inherited self "HIDE") with (Some (A_macro B_HIDE)).
    cbn [call_attr call_macro]. rewrite (HIDE_ok _ _ _ _ Hv Hmd).
    unfold bind at 1. unfold lift at 1.
    cbv beta iota delta [add_expansion truthy].
    unfold bind at 1. unfold ret at 1. unfold ret at 1. unfold bind.
    assert (Hlit : slice (pre ++ wrap "HIDE" ++ post) 0 (String.length pre)
                   = pre).
    { unfold slice. rewrite drop_0, Nat.sub_0_r. apply take_app_length. }
    assert (Htail : drop (String.length pre + (String.length "HIDE" + 3))
                      (pre ++ wrap "HIDE" ++ post) = post).
    { rewrite drop_drop, drop_app_length, <- length_wrap.
      apply drop_app_length. }
    rewrite Hlit, Htail, app_nil_l.
    erewrite set_source_ok;
      [| cbn [heap]; apply list_lookup_insert_eq; by eapply lookup_lt_Some].
    unfold ret. cbn [heap nb_cells]. unfold with_source.
    cbn [cell_type metadata execution_count outputs].
    by rewrite list_insert_insert_eq.
  - intros Hmd.
    apply (process_cell_first_raises _ _ self cell st st v pre "HIDE" post);
      try done.
    unfold try_expand, catch, expand_macro, expand_macro_with, bind, lift.
    change (parse_macro "HIDE") with (Ok ("HIDE", @nil string)). cbn [fst snd].
    change (getattr inherited self "HIDE") with (Some (A_macro B_HIDE)).
    cbn [call_attr call_macro].
    unfold HIDE, HIDE_INPUT, bind, set_metadata_flag, bind, get_cell.
    by rewrite Hv, Hmd.
Qed.

Lemma HIDE_reference_witness :
  process_cell false no_inherited (self_of ∅) 0
    (document ["#$HIDE$import os"])
  = (mkStore
       (<[0 := mkCell (Some "markdown")
                 (Some (<["_kg_hide-output" := VBool true]>
                          (<["_kg_hide-input" := VBool true]> ∅)))
                 (Some (VStr ("" ++ "import os"))) None None]>
          (heap (document ["#$HIDE$import os"])))
       [0], Ok 0)
  /\ process_cell false no_inherited (self_of ∅) 0
       (bare_document "#$HIDE$import os")
     = (bare_document "#$HIDE$import os", Raise (KeyError "metadata")).
Proof.
  split.
  - exact (proj1 (HIDE_reference false no_inherited (self_of ∅) 0
                    (document ["#$HIDE$import os"])
                    (text_cell "markdown" "#$HIDE$import os") "" "import os"
                    eq_refl eq_refl eq_refl eq_refl) ∅ eq_refl).
  - exact (proj2 (HIDE_reference false no_inherited (self_of ∅) 0
                    (bare_document "#$HIDE$import os")
                    (mkCell None None (Some (VStr "#$HIDE$import os"))
                            (Some VNone) (Some (VList [])))
                    "" "import os" eq_refl eq_refl eq_refl eq_refl) eq_refl).
Defined.

(** ** What the dispatcher leaves alone *)

Section Frame.

Variable IGNORE_UNKNOWN_MACROS : bool.
Variable inherited : string -> option (list string -> loc -> M PyVal).
Lemma same_but_metadata_refl (v : Cell) : same_but_metadata v v.
Proof. by repeat split. Qed.

Lemma same_but_metadata_text (v v' : Cell) :
  same_but_metadata v v' -> same_but_text v v'.
Proof. intros (? & ? & ? & ?). by repeat split. Qed.

Lemma frame_refl (R : Cell -> Cell -> Prop) (cell : loc) (st : Store) :
  (forall v, R v v) -> frame R cell st st.
Proof. intros HR. repeat split. intros c v Hv. exists v. eauto. Qed.

Lemma frame_trans (R : Cell -> Cell -> Prop) (cell : loc)
    (st st1 st2 : Store) :
  (forall a b c, R a b -> R b c -> R a c) ->
  frame R cell st st1 -> frame R cell st1 st2 -> frame R cell st st2.
Proof.
  intros HR (Hn1 & Hl1 & H1) (Hn2 & Hl2 & H2).
  repeat split; [congruence | congruence |].
  intros c v Hv. destruct (H1 c v Hv) as (v1 & Hv1 & Heq1 & HR1).
  destruct (H2 c v1 Hv1) as (v2 & Hv2 & Heq2 & HR2).
  exists v2. repeat split; [done | | by eapply HR].
  intros Hne. by rewrite (Heq2 Hne), (Heq1 Hne).
Qed.

Lemma frame_weaken (R R' : Cell -> Cell -> Prop) (cell : loc)
    (st st' : Store) :
  (forall v v', R v v' -> R' v v') -> frame R cell st st' ->
  frame R' cell st st'.
Proof.
  intros HR (Hn & Hl & H). repeat split; [done..|].
  intros c v Hv. destruct (H c v Hv) as (v' & ? & ? & ?). eauto.
Qed.

Lemma frame_put (R : Cell -> Cell -> Prop) (cell : loc) (st : Store)
    (v v' : Cell) :
  (forall x, R x x) -> heap st !! cell = Some v -> R v v' ->
  frame R cell st (mkStore (<[cell := v']> (heap st)) (nb_cells st)).
Proof.
  intros Hrefl Hv HR. repeat split; cbn [heap nb_cells].
  - apply length_insert.
  - intros c x Hx. destruct (decide (c = cell)) as [->|Hne].
    + exists v'. rewrite list_lookup_insert_eq by by eapply lookup_lt_Some.
      repeat split; [done|]. by replace x with v by congruence.
    + exists x. by rewrite list_lookup_insert_ne.
Qed.

Lemma same_but_metadata_trans (a b c : Cell) :
  same_but_metadata a b -> same_but_metadata b c -> same_but_metadata a c.
Proof.
  intros (? & ? & ? & ?) (? & ? & ? & ?). repeat split; congruence.
Qed.

Lemma set_metadata_flag_frame (cell : loc) (key : string) (st st' : Store)
    (r : Res unit) :
  set_metadata_flag cell key st = (st', r) ->
  frame same_but_metadata cell st st'.
Proof.
  unfold set_metadata_flag, bind, get_cell, put_cell, raise.
  destruct (heap st !! cell) as [v|] eqn:Hv.
  - destruct (metadata v) as [md|]; intros [= <- <-].
    + apply (frame_put _ _ _ v); [apply same_but_metadata_refl | done |].
      by repeat split.
    + apply frame_refl, same_but_metadata_refl.
  - intros [= <- <-]. apply frame_refl, same_but_metadata_refl.
Qed.

Lemma flag_step_frame (cell : loc) (key : string) (st st' : Store)
    (r : Res PyVal) :
  (set_metadata_flag cell key ;;; ret VNone) st = (st', r) ->
  frame same_but_metadata cell st st'.
Proof.
  unfold bind.
  destruct (set_metadata_flag cell key st) as [st1 [[]|e]] eqn:Hf;
    intros [= <- <-]; by eapply set_metadata_flag_frame.
Qed.

Lemma call_macro_frame (self : Self) (b : Builtin) (args : list string)
    (cell : loc) (st st' : Store) (r : Res PyVal) :
  call_macro self b args cell st = (st', r) ->
  frame same_but_metadata cell st st'.
Proof.
  assert (Hsame : forall x : Res PyVal,
            lift x st = (st', r) -> frame same_but_metadata cell st st')
    by (intros x [= <- <-]; apply frame_refl, same_but_metadata_refl).
  assert (Hraise : @raise PyVal TypeError st = (st', r) ->
                   frame same_but_metadata cell st st')
    by (intros [= <- <-]; apply frame_refl, same_but_metadata_refl).
  destruct b, args as [|a [|a' args]]; cbn [call_macro]; eauto;
    try apply flag_step_frame.
  unfold HIDE, HIDE_INPUT, HIDE_OUTPUT. unfold bind at 1.
  destruct ((set_metadata_flag cell "_kg_hide-input" ;;; ret VNone) st)
    as [st1 [x|e]] eqn:H1.
  - apply flag_step_frame in H1. unfold bind at 1.
    destruct ((set_metadata_flag cell "_kg_hide-output" ;;; ret VNone) st1)
      as [st2 [y|e]] eqn:H3; apply flag_step_frame in H3;
      intros [= <- <-];
      (eapply frame_trans; [apply same_but_metadata_trans | exact H1 | done]).
  - intros [= <- <-]. by eapply flag_step_frame.
Qed.

Lemma getattr_expand_macro (self : Self) (name : string) :
  getattr inherited self name = Some (A_method Meth_expand_macro) ->
  name = "expand_macro".
Proof.
  unfold getattr. destruct (assoc name builtin_names); [done|].
  destruct (assoc name method_names) as [m|] eqn:Hm.
  - intros [= ->]. unfold method_names in Hm. cbn [assoc] in Hm.
    repeat match type of Hm with
           | context [String.eqb name ?k] =>
               destruct (String.eqb_spec name k) as [Heq|?];
                 [simpl in Hm; first [discriminate Hm | exact Heq]|]
           end.
    simpl in Hm. discriminate Hm.
  - destruct (String.eqb name "track" || String.eqb name "cfg"); [done|].
    destruct (String.eqb name "lesson"); [by destruct (lesson self)|].
    by destruct (inherited name).
Qed.

Lemma expand_macro_with_frame (rec : string -> loc -> M PyVal)
    (self : Self) (macro : string) (cell : loc) (st st' : Store)
    (r : Res PyVal) :
  (forall name args, parse_macro macro = Ok (name, args) ->
                     inherited_attr (getattr inherited self name) = false) ->
  (forall x s s' q, parse_macro macro = Ok ("expand_macro", [x]) ->
                    rec x cell s = (s', q) ->
                    frame same_but_metadata cell s s') ->
  expand_macro_with inherited rec self macro cell st = (st', r) ->
  frame same_but_metadata cell st st'.
Proof.
  intros Hinh Hrec. unfold expand_macro_with, bind, lift.
  destruct (parse_macro macro) as [[name args]|e];
    [|by intros [= <- <-]; apply frame_refl, same_but_metadata_refl].
  cbn [fst snd]. specialize (Hinh name args eq_refl).
  destruct (getattr inherited self name) as [[b|m| |f]|] eqn:Hg;
    cbn [call_attr].
  - apply call_macro_frame.
  - destruct m, args as [|a [|a' args]]; cbn [call_method];
      try (intros [= <- <-]; apply frame_refl, same_but_metadata_refl).
    apply getattr_expand_macro in Hg as ->. by apply Hrec.
  - intros [= <- <-]. apply frame_refl, same_but_metadata_refl.
  - done.
  - intros [= <- <-]. apply frame_refl, same_but_metadata_refl.
Qed.

Lemma try_expand_frame (self : Self) (macro : string) (cell : loc)
    (st st' : Store) (r : Res PyVal) :
  (forall n, n ∈ reached_names macro ->
             inherited_attr (getattr inherited self n) = false) ->
  try_expand IGNORE_UNKNOWN_MACROS inherited self macro cell st = (st', r) ->
  frame same_but_metadata cell st st'.
Proof.
  intros Hinh. unfold try_expand, catch.
  destruct (expand_macro inherited self macro cell st) as [st1 q] eqn:He.
  assert (Hf : frame same_but_metadata cell st st1).
  { eapply expand_macro_with_frame; [| |exact He].
    - intros name args Hp. apply Hinh. unfold reached_names. rewrite Hp.
      apply list_elem_of_here.
    - intros x s s' q' Hp. apply expand_macro_with_frame.
      + intros n args' Hx. apply Hinh. unfold reached_names.
        rewrite Hp. cbn [String.eqb Ascii.eqb Bool.eqb]. rewrite Hx.
        apply list_elem_of_further, list_elem_of_here.
      + intros ? ? ? ? _ [= <- <-].
        apply frame_refl, same_but_metadata_refl. }
  destruct q as [a|e]; [by intros [= <- <-]|].
  destruct e; try (by intros [= <- <-]).
  by destruct IGNORE_UNKNOWN_MACROS; intros [= <- <-].
Qed.

Lemma run_expansions_frame (self : Self) (cell : loc) (groups : list string)
    (st st' : Store) (r : Res (list string)) :
  (forall g n, g ∈ groups -> n ∈ reached_names g ->
               inherited_attr (getattr inherited self n) = false) ->
  run_expansions IGNORE_UNKNOWN_MACROS inherited self cell groups st
  = (st', r) ->
  frame same_but_metadata cell st st'.
Proof.
  revert st st' r; induction groups as [|g gs IH]; intros st st' r Hinh.
  - intros [= <- <-]. apply frame_refl, same_but_metadata_refl.
  - cbn [LessonPreprocessor.run_expansions]. unfold bind at 1.
    assert (Hg : forall n, n ∈ reached_names g ->
                           inherited_attr (getattr inherited self n) = false)
      by (intros n; apply Hinh, list_elem_of_here).
    assert (Hgs : forall g' n, g' ∈ gs -> n ∈ reached_names g' ->
                    inherited_attr (getattr inherited self n) = false)
      by (intros g' n Hin; by apply Hinh, list_elem_of_further).
    destruct (try_expand _ _ self g cell st) as [st1 [v|e]] eqn:Ht.
    + apply (try_expand_frame _ _ _ _ _ _ Hg) in Ht. unfold bind at 1.
      unfold lift.
      destruct (add_expansion "" v) as [x|e];
        [|by intros [= <- <-]].
      unfold bind.
      destruct (LessonPreprocessor.run_expansions _ _ self cell gs st1)
        as [st2 [es|e]] eqn:Hr; intros [= <- <-];
        (eapply frame_trans;
         [apply same_but_metadata_trans | exact Ht | by eapply IH]).
    + intros [= <- <-]. by eapply try_expand_frame.
Qed.

End Frame.

Lemma same_but_text_trans (a b c : Cell) :
  same_but_text a b -> same_but_text b c -> same_but_text a c.
Proof. intros (? & ? & ?) (? & ? & ?). repeat split; congruence. Qed.

(** Checking, by computation, that the references of a text reach no
    inherited attribute. *)
Lemma reached_check
    (inherited : string -> option (list string -> loc -> M PyVal))
    (self : Self) (src : string) :
  forallb
    (fun m =>
       forallb (fun n => negb (inherited_attr (getattr inherited self n)))
         (reached_names (m_group m)))
    (finditer src) = true ->
  forall m n, m ∈ finditer src -> n ∈ reached_names (m_group m) ->
              inherited_attr (getattr inherited self n) = false.
Proof.
  intros Hall m n Hm Hn.
  apply list_elem_of_In in Hm, Hn.
  rewrite forallb_forall in Hall. specialize (Hall m Hm).
  rewrite forallb_forall in Hall. specialize (Hall n Hn).
  by apply negb_true_iff in Hall.
Qed.

(** X4. When none of the names that the references of a cell look up
    (the name of each reference and, behind [expand_macro(x)], the name
    of [x]) resolves to an attribute inherited from the base class,
    [process_cell] touches nothing but the cell it is given: the
    document's list of cells, the number of cells and every other cell
    are as before, and of its own cell only the text and the metadata can
    differ. When it raises, the text is as before too: only flags set by
    references met before the failure remain. What else the base class
    provides does not matter. *)
Theorem process_cell_frame
    (IGNORE_UNKNOWN_MACROS : bool)
    (inherited : string -> option (list string -> loc -> M PyVal))
    (self : Self) (cell : loc) (st st' : Store) (r : Res loc) :
  (forall v src m n,
     heap st !! cell = Some v -> source v = Some (VStr src) ->
     m ∈ finditer src -> n ∈ reached_names (m_group m) ->
     inherited_attr (getattr inherited self n) = false) ->
  process_cell IGNORE_UNKNOWN_MACROS inherited self cell st = (st', r) ->
  frame same_but_text cell st st'
  /\ (forall e, r = Raise e -> frame same_but_metadata cell st st').
Proof.
  intros Hinh. unfold process_cell. unfold bind at 1.
  assert (Hrefl : frame same_but_text cell st st
                  /\ frame same_but_metadata cell st st).
  { split; apply frame_refl; intros v; [|apply same_but_metadata_refl].
    apply same_but_metadata_text, same_but_metadata_refl. }
  unfold get_source, bind, get_cell.
  destruct (heap st !! cell) as [v|] eqn:Hv;
    [|by intros [= <- <-]; split; [|intros _ _]; apply Hrefl].
  destruct (source v) as [[| | |src| |]|] eqn:Hsrc;
    try (by intros [= <- <-]; split; [|intros _ _]; apply Hrefl).
  unfold ret at 1. rewrite expand_matches_spec. unfold bind at 1.
  assert (Hgroups : forall g n, g ∈ m_group <$> finditer src ->
                      n ∈ reached_names g ->
                      inherited_attr (getattr inherited self n) = false).
  { intros g n (m & -> & Hm)%list_elem_of_fmap Hn.
    by apply (Hinh v src m n). }
  destruct (run_expansions _ _ self cell _ st) as [st1 [es|e]] eqn:Hr;
    apply (run_expansions_frame _ _ _ _ _ _ _ _ Hgroups) in Hr.
  - unfold ret at 1. unfold set_source, bind, get_cell, put_cell, ret.
    destruct (heap st1 !! cell) as [v1|] eqn:Hv1; intros [= <- <-].
    + split; [|done].
      eapply frame_trans;
        [apply same_but_text_trans
        | eapply frame_weaken; [apply same_but_metadata_text | exact Hr]
        |].
      apply (frame_put _ _ _ v1); [| done | by repeat split].
      intros x. apply same_but_metadata_text, same_but_metadata_refl.
    + split; [|by intros _ _].
      eapply frame_weaken; [apply same_but_metadata_text | exact Hr].
  - intros [= <- <-]. split; [|by intros _ _].
    eapply frame_weaken; [apply same_but_metadata_text | exact Hr].
Qed.

(** On a preprocessor whose base class has the attribute [enabled], and a
    cell that does not refer to it. *)
Lemma process_cell_frame_witness :
  let st :=
    document ["#$HIDE$ #$expand_macro(HIDE_INPUT)$ then #$NO_SUCH$";
              "#$enabled$"] in
  getattr base_attrs (self_of ∅) "enabled" <> None
  /\ frame same_but_text 0 st
       (fst (process_cell false base_attrs (self_of ∅) 0 st))
  /\ (forall e,
        snd (process_cell false base_attrs (self_of ∅) 0 st) = Raise e ->
        frame same_but_metadata 0 st
          (fst (process_cell false base_attrs (self_of ∅) 0 st))).
Proof.
  intros st. split; [done|].
  apply (process_cell_frame false base_attrs (self_of ∅) 0 st _ _);
    [|apply surjective_pairing].
  intros v src m n [= <-] [= <-]. by apply reached_check.
Defined.

Example process_cell_failure_keeps_flags :
  process_cell false no_inherited (self_of ∅) 0
    (document ["#$HIDE$ then #$NO_SUCH$"])
  = (mkStore
       [mkCell (Some "markdown")
          (Some (<["_kg_hide-output" := VBool true]>
                   (<["_kg_hide-input" := VBool true]> ∅)))
          (Some (VStr "#$HIDE$ then #$NO_SUCH$")) None None]
       [0], Raise (unrecognized "NO_SUCH")).
Proof. vm_compute. reflexivity. Qed.

(** ** Errors raised while a reference is expanded *)



Lemma getattr_builtin
    (inherited : string -> option (list string -> loc -> M PyVal))
    (self : Self) (name : string) (b : Builtin) :
  (name, b) ∈ builtin_names -> getattr inherited self name = Some (A_macro b).
Proof.
  intros Hb. unfold builtin_names in Hb.
  repeat (apply elem_of_cons in Hb as [[= -> ->]|Hb]; [reflexivity|]).
  by apply elem_of_nil in Hb.
Qed.

(** X6. A built-in macro called with fewer or more positional arguments
    than its signature takes fails with [TypeError] before doing
    anything, and a reference that names it with such an argument list
    makes the [try] raise that [TypeError] in both modes. *)
Theorem wrong_arity_TypeError
    (IGNORE_UNKNOWN_MACROS : bool)
    (inherited : string -> option (list string -> loc -> M PyVal))
    (self : Self) (b : Builtin) (args : list string) (cell : loc)
    (st : Store) :
  length args < fst (arity b) \/ snd (arity b) < length args ->
  call_macro self b args cell st = (st, Raise TypeError)
  /\ (forall ref name,
        (name, b) ∈ builtin_names -> parse_macro ref = Ok (name, args) ->
        try_expand IGNORE_UNKNOWN_MACROS inherited self ref cell st
        = (st, Raise TypeError)).
Proof.
  intros Hlen.
  assert (Hcall : call_macro self b args cell st = (st, Raise TypeError)).
  { destruct b, args as [|a [|a' args]]; cbn in Hlen; try lia; done. }
  split; [done|]. intros ref name Hb Hparse.
  unfold try_expand, catch, expand_macro, expand_macro_with, bind, lift.
  rewrite Hparse. cbn [fst snd]. rewrite (getattr_builtin _ _ _ _ Hb).
  cbn [call_attr]. by rewrite Hcall.
Qed.

Lemma wrong_arity_TypeError_witness :
  call_macro (self_of ∅) B_HIDE ["x"] 0 (document ["#$HIDE(x)$"])
  = (document ["#$HIDE(x)$"], Raise TypeError)
  /\ try_expand true no_inherited (self_of ∅) "HIDE(x)" 0
       (document ["#$HIDE(x)$"])
     = (document ["#$HIDE(x)$"], Raise TypeError).
Proof.
  pose proof (wrong_arity_TypeError true no_inherited (self_of ∅) B_HIDE
                ["x"] 0 (document ["#$HIDE(x)$"])
                (or_intror (Nat.lt_0_1))) as [Hcall Htry].
  split; [exact Hcall|].
  apply (Htry "HIDE(x)" "HIDE"); [|reflexivity].
  unfold builtin_names. do 3 apply list_elem_of_further. apply list_elem_of_here.
Defined.

(** ** The macros that produce text *)

Lemma contains_refl (x : string) : contains x x.
Proof. exists "", "". by rewrite app_nil_l, app_nil_r. Qed.

Lemma contains_here (x b : string) : contains (x ++ b) x.
Proof. by exists "", b. Qed.

Lemma contains_app_r (a b x : string) : contains b x -> contains (a ++ b) x.
Proof.
  intros (pre & post & ->). exists (a ++ pre), post. by rewrite app_assoc.
Qed.

Lemma contains_app_l (a b x : string) : contains a x -> contains (a ++ b) x.
Proof.
  intros (pre & post & ->). exists pre, (post ++ b). by rewrite !app_assoc.
Qed.

Ltac find_contains :=
  solve [ apply contains_refl | apply contains_here
        | apply contains_app_r; find_contains
        | apply contains_app_l; find_contains ].

(** X7. In a pass without a lesson (a notebook of type [extra]) every
    macro that reads the current lesson fails with [AttributeError], in
    daily mode too except for [KEEP_GOING]; the macros that take a lesson
    number do not look at the current lesson at all. *)
Theorem macros_without_lesson (self : Self) :
  lesson self = None ->
  YOURTURN self = Raise (AttributeError "exercise")
  /\ EXERCISE_PREAMBLE self = Raise (AttributeError "topic")
  /\ EXERCISE_FORKING_URL self None = Raise (AttributeError "exercise")
  /\ TUTORIAL_URL self None = Raise (AttributeError "tutorial")
  /\ (forall jot_id,
        END_OF_EMB_EXERCISE self jot_id = Raise (AttributeError "last"))
  /\ (cfg_truthy (cfg self) "daily" = false ->
      KEEP_GOING self = Raise (AttributeError "next"))
  /\ (forall l n,
        EXERCISE_URL self n
        = EXERCISE_URL (mkSelf (track self) (Some l) (cfg self)) n
        /\ TUTORIAL_URL self (Some n)
           = TUTORIAL_URL (mkSelf (track self) (Some l) (cfg self)) (Some n)
        /\ EXERCISE_FORKING_URL self (Some n)
           = EXERCISE_FORKING_URL (mkSelf (track self) (Some l) (cfg self))
               (Some n)).
Proof.
  intros Hl.
  unfold YOURTURN, EXERCISE_PREAMBLE, EXERCISE_FORKING_URL, TUTORIAL_URL,
    END_OF_EMB_EXERCISE, KEEP_GOING, the_lesson.
  rewrite Hl. repeat split; try done. by intros ->.
Qed.

Lemma macros_without_lesson_witness :
  YOURTURN (mkSelf python_track None ∅) = Raise (AttributeError "exercise")
  /\ EXERCISE_PREAMBLE (mkSelf python_track None ∅)
     = Raise (AttributeError "topic").
Proof.
  pose proof (macros_without_lesson (mkSelf python_track None ∅) eq_refl)
    as (H1 & H2 & _).
  exact (conj H1 H2).
Defined.

(** X8. [END_OF_EMB_EXERCISE] on a lesson marked last returns the survey
    text for the given id and does not look at the next lesson; on a
    lesson not marked last it adds a block with the tutorial URL and the
    topic of the next lesson, and fails with [AttributeError] when there
    is no next lesson or the next lesson has no tutorial (it does not
    fall back to the exercise as [KEEP_GOING] does). *)
Theorem END_OF_EMB_EXERCISE_text (self : Self) (l : Lesson)
    (jot_id : string) :
  lesson self = Some l ->
  (last l = true ->
   exists t, END_OF_EMB_EXERCISE self jot_id = Ok (VStr t)
             /\ contains t ("https://form.jotform.com/" ++ jot_id)
             /\ END_OF_EMB_EXERCISE
                  (mkSelf (track self)
                     (Some (mkLesson (topic l) (tutorial l) (exercise l)
                                     true None)) (cfg self)) jot_id
                = Ok (VStr t))
  /\ (last l = false ->
      (next l = None ->
       END_OF_EMB_EXERCISE self jot_id = Raise (AttributeError "next"))
      /\ (forall nl, next l = Some nl ->
            (tutorial nl = None ->
             END_OF_EMB_EXERCISE self jot_id
             = Raise (AttributeError "tutorial"))
            /\ (forall tu, tutorial nl = Some tu ->
                  exists t, END_OF_EMB_EXERCISE self jot_id = Ok (VStr t)
                            /\ contains t ("https://form.jotform.com/"
                                           ++ jot_id)
                            /\ contains t (url tu)
                            /\ contains t (topic nl)))).
Proof.
  intros Hl. unfold END_OF_EMB_EXERCISE, the_lesson. rewrite Hl.
  cbn [res_bind lesson last]. split.
  - intros ->. cbn [negb]. eexists. split; [reflexivity|]. split; [|done].
    find_contains.
  - intros ->. cbn [negb]. unfold next_lesson_of, tutorial_url. split.
    + by intros ->.
    + intros nl ->. cbn [res_bind]. split; [by intros ->|].
      intros tu ->. cbn [res_bind]. eexists. split; [reflexivity|].
      repeat split; find_contains.
Qed.

Lemma END_OF_EMB_EXERCISE_text_witness :
  exists t, END_OF_EMB_EXERCISE (self_of ∅) "123" = Ok (VStr t)
            /\ contains t ("https://form.jotform.com/" ++ "123")
            /\ contains t "https://k.example/t2"
            /\ contains t "Functions".
Proof.
  exact (proj2 (proj2 (proj2 (END_OF_EMB_EXERCISE_text (self_of ∅) lesson1
                                "123" eq_refl) eq_refl)
                  lesson2 eq_refl)
           (mkTutorial "https://k.example/t2") eq_refl).
Defined.

(** X9. With a current lesson, [YOURTURN] returns a text that contains
    the forking URL of its exercise and its topic, and fails with
    [AttributeError] when the lesson has no exercise; [EXERCISE_PREAMBLE]
    returns a text that contains its topic and the URL of its tutorial,
    and fails with [AttributeError] when the lesson has no tutorial. *)
Theorem YOURTURN_and_PREAMBLE_text (self : Self) (l : Lesson) :
  lesson self = Some l ->
  (forall ex, exercise l = Some ex ->
     exists t, YOURTURN self = Ok (VStr t)
               /\ contains t (forking_url ex) /\ contains t (topic l))
  /\ (exercise l = None -> YOURTURN self = Raise (AttributeError "exercise"))
  /\ (forall tu, tutorial l = Some tu ->
        exists t, EXERCISE_PREAMBLE self = Ok (VStr t)
                  /\ contains t (topic l) /\ contains t (url tu))
  /\ (tutorial l = None ->
      EXERCISE_PREAMBLE self = Raise (AttributeError "tutorial")).
Proof.
  intros Hl.
  unfold YOURTURN, EXERCISE_PREAMBLE, the_lesson, exercise_forking_url,
    tutorial_url.
  rewrite Hl. cbn [res_bind]. repeat split.
  - intros ex ->. cbn [res_bind]. eexists. split; [reflexivity|].
    split; find_contains.
  - by intros ->.
  - intros tu ->. cbn [res_bind]. eexists. split; [reflexivity|].
    split; find_contains.
  - by intros ->.
Qed.

Lemma YOURTURN_and_PREAMBLE_text_witness :
  (exists t, YOURTURN (self_of ∅) = Ok (VStr t)
             /\ contains t "https://k.example/e1" /\ contains t "Syntax")
  /\ (exists t, EXERCISE_PREAMBLE (self_of ∅) = Ok (VStr t)
                /\ contains t "Syntax" /\ contains t "https://k.example/t1").
Proof.
  pose proof (YOURTURN_and_PREAMBLE_text (self_of ∅) lesson1 eq_refl)
    as (Hy & _ & Hp & _).
  split.
  - exact (Hy (mkExercise "https://k.example/e1") eq_refl).
  - exact (Hp (mkTutorial "https://k.example/t1") eq_refl).
Defined.

(** X10. [TUTORIAL_URL] and [EXERCISE_FORKING_URL] called with a lesson
    number [n] between 1 and the number of lessons use
    [track.lessons[n - 1]], whatever the current lesson is; a text that
    is not an integer is a [ValueError]; and [EXERCISE_FORKING_URL] with
    an argument is [EXERCISE_URL]. *)
Theorem lesson_number_macros (self : Self) (s : string) :
  (forall n, PyStr.int s = Some n ->
     (1 <= n <= Z.of_nat (length (lessons (track self))))%Z ->
     exists l, lessons (track self) !! Z.to_nat (n - 1) = Some l
       /\ TUTORIAL_URL self (Some s)
          = res_bind (tutorial_url l) (fun u => Ok (VStr u))
       /\ EXERCISE_FORKING_URL self (Some s)
          = res_bind (exercise_forking_url l) (fun u => Ok (VStr u)))
  /\ (PyStr.int s = None ->
      TUTORIAL_URL self (Some s) = Raise ValueError
      /\ EXERCISE_FORKING_URL self (Some s) = Raise ValueError
      /\ EXERCISE_URL self s = Raise ValueError)
  /\ EXERCISE_FORKING_URL self (Some s) = EXERCISE_URL self s.
Proof.
  unfold TUTORIAL_URL, EXERCISE_FORKING_URL, EXERCISE_URL, indexed_lesson.
  split; [|split; [|done]].
  - intros n -> Hn. unfold py_index.
    replace (n - 1 <? 0)%Z with false by (symmetry; apply Z.ltb_ge; lia).
    replace (0 <=? n - 1)%Z with true by (symmetry; apply Z.leb_le; lia).
    replace (n - 1 <? Z.of_nat (length (lessons (track self))))%Z with true
      by (symmetry; apply Z.ltb_lt; lia).
    cbn [andb].
    destruct (lookup_lt_is_Some_2 (lessons (track self)) (Z.to_nat (n - 1)))
      as [l Hl]; [lia|].
    exists l. by rewrite Hl.
  - by intros ->.
Qed.

Lemma lesson_number_macros_witness :
  exists l, lessons (track (self_of ∅)) !! Z.to_nat (1 - 1) = Some l
    /\ TUTORIAL_URL (self_of ∅) (Some "1")
       = res_bind (tutorial_url l) (fun u => Ok (VStr u))
    /\ EXERCISE_FORKING_URL (self_of ∅) (Some "1")
       = res_bind (exercise_forking_url l) (fun u => Ok (VStr u)).
Proof.
  apply (proj1 (lesson_number_macros (self_of ∅) "1") 1%Z eq_refl).
  simpl. lia.
Defined.

(** ** Bootstrap cells *)

Lemma bind_ok {A B} (m : M A) (k : A -> M B) (st st1 : Store) (a : A) :
  m st = (st1, Ok a) -> bind m k st = k a st1.
Proof. intros H. unfold bind. by rewrite H. Qed.

Lemma pip_install_cell_ok (pkg : string) (st : Store) :
  pip_install_cell pkg st
  = (mkStore (heap st ++ [install_cell pkg]) (nb_cells st),
     Ok (length (heap st))).
Proof. reflexivity. Qed.

Lemma install_each_ok (l : list string) (st : Store) :
  (fix each (l : list string) : M (list loc) :=
     match l with
     | [] => ret []
     | pkg :: r =>
         c <- pip_install_cell pkg ;;
         cs <- each r ;;
         ret (c :: cs)
     end) l st
  = (mkStore (heap st ++ (install_cell <$> l)) (nb_cells st),
     Ok (seq (length (heap st)) (length l))).
Proof.
  revert st; induction l as [|pkg r IH]; intros st.
  - unfold ret. cbn [fmap list_fmap length seq]. rewrite List.app_nil_r.
    by destruct st.
  - unfold bind at 1. rewrite pip_install_cell_ok. unfold bind at 1.
    rewrite IH. unfold ret. cbn [heap nb_cells fmap list_fmap length seq].
    rewrite List.length_app, <- List.app_assoc. cbn [length app].
    by rewrite Nat.add_1_r.
Qed.

Lemma pip_install_hack_ok (pkg : string) (pkgs : list string) (st : Store) :
  pip_install_hack (pkg :: pkgs) st
  = (mkStore (heap st ++ (install_cell <$> pkg :: pkgs) ++ [syspath_cell])
             (seq (length (heap st)) (S (S (length pkgs))) ++ nb_cells st),
     Ok tt).
Proof.
  unfold pip_install_hack. cbv match.
  rewrite (bind_ok _ _ _ _ _ (install_each_ok (pkg :: pkgs) st)).
  unfold bind, make_cell, alloc, get_nb_cells, set_nb_cells.
  cbn [String.eqb Ascii.eqb Bool.eqb andb heap nb_cells].
  unfold with_source. cbn [cell_type metadata execution_count outputs].
  fold syspath_cell.
  rewrite List.length_app, length_fmap, List.app_assoc.
  change (S (S (length pkgs))) with (S (length (pkg :: pkgs))).
  by rewrite List.seq_S.
Qed.

(** X11. [pip_install_hack] with no package does nothing at all, not even
    the path cell. With packages it allocates one install cell per
    package, in the order given, then one path cell, and puts them in
    that order in front of the cells the document had; the cells already
    in the store are not touched. *)
Theorem pip_install_hack_cells (pkgs : list string) (st : Store) :
  pip_install_hack [] st = (st, Ok tt)
  /\ (pkgs <> [] ->
      pip_install_hack pkgs st
      = (mkStore (heap st ++ (install_cell <$> pkgs) ++ [syspath_cell])
                 (seq (length (heap st)) (S (length pkgs)) ++ nb_cells st),
         Ok tt)).
Proof.
  split; [done|]. destruct pkgs as [|pkg pkgs]; [done|]. intros _.
  apply pip_install_hack_ok.
Qed.

Lemma pip_install_hack_cells_witness :
  pip_install_hack ["numpy"; "pandas"] (document ["a"; "b"])
  = (mkStore (heap (document ["a"; "b"])
              ++ (install_cell <$> ["numpy"; "pandas"]) ++ [syspath_cell])
             (seq 2 3 ++ [0; 1]), Ok tt).
Proof.
  apply (proj2 (pip_install_hack_cells ["numpy"; "pandas"]
                  (document ["a"; "b"]))).
  discriminate.
Defined.



(** X13. Once [pip_install_hack] has put its cells in front, the document
    cannot be preprocessed again: the text of the first cell is a list of
    lines, not a string, so the scan stops on it with [AttributeError]
    before any cell is processed, whatever the configuration. *)
Theorem bootstrap_output_not_reprocessable
    (IGNORE_UNKNOWN_MACROS : bool)
    (inherited : string -> option (list string -> loc -> M PyVal))
    (macroer : gmap string PyVal -> loc -> M (option loc))
    (git_branch : Res string)
    (add_header_and_footer : Self -> list loc -> M (list loc))
    (resources : Resources) (pkgs : list string) (st : Store) :
  pkgs <> [] ->
  let st' := fst (pip_install_hack pkgs st) in
  preprocess IGNORE_UNKNOWN_MACROS inherited macroer git_branch
    add_header_and_footer resources st'
  = (st', Raise (AttributeError "strip")).
Proof.
  destruct pkgs as [|pkg pkgs]; [done|]. intros _ st'. subst st'.
  rewrite pip_install_hack_ok. cbn [fst].
  unfold preprocess. unfold bind at 1, get_nb_cells. cbn [nb_cells seq app].
  unfold bind at 1. cbn [scan_cells]. unfold bind at 1.
  unfold get_source, bind, get_cell. cbn [heap].
  rewrite lookup_app_r by done. rewrite Nat.sub_diag. done.
Qed.

Lemma bootstrap_output_not_reprocessable_witness :
  preprocess false no_inherited keep_all (Ok "master") documented_framing
    (resources_of daily_cfg "exercise")
    (fst (pip_install_hack ["numpy"] (document ["a"])))
  = (fst (pip_install_hack ["numpy"] (document ["a"])),
     Raise (AttributeError "strip")).
Proof.
  apply (bootstrap_output_not_reprocessable false no_inherited keep_all
           (Ok "master") documented_framing
           (resources_of daily_cfg "exercise") ["numpy"]
           (document ["a"])).
  discriminate.
Defined.

(** ** What the scan collects *)

Lemma process_cell_returns_cell
    (IGNORE_UNKNOWN_MACROS : bool)
    (inherited : string -> option (list string -> loc -> M PyVal))
    (self : Self) (cell c' : loc) (st st' : Store) :
  process_cell IGNORE_UNKNOWN_MACROS inherited self cell st = (st', Ok c') ->
  c' = cell.
Proof.
  unfold process_cell. unfold bind at 1.
  destruct (get_source cell st) as [st0 [[| | |src| |]|e]]; try done.
  unfold bind at 1.
  destruct (expand_matches _ _ self cell src _ _ _ st0)
    as [st1 [newsrc|e]]; [|done].
  unfold bind. destruct (set_source cell (VStr newsrc) st1) as [st2 [[]|e]];
    [|done].
  by intros [= _ <-].
Qed.

(** X14. With a resolver that hands back the cell it is given or drops
    it, the cells the scan collects are added after those collected
    before, and they are cells of the document in the order of the
    document: the scan never repeats, reorders or invents a cell. *)
Theorem scan_collects_sublist
    (IGNORE_UNKNOWN_MACROS : bool)
    (inherited : string -> option (list string -> loc -> M PyVal))
    (macroer : gmap string PyVal -> loc -> M (option loc))
    (self : Self) (cells acc r : list loc) (st st' : Store) :
  (forall c s s' c', macroer (cfg self) c s = (s', Ok (Some c')) -> c' = c) ->
  scan_cells IGNORE_UNKNOWN_MACROS inherited macroer self cells acc st
  = (st', Ok r) ->
  exists kept, r = (acc ++ kept)%list /\ kept `sublist_of` cells.
Proof.
  intros Hmac. revert acc st; induction cells as [|cell rest IH];
    intros acc st.
  - intros [= <- <-]. exists []. by rewrite List.app_nil_r.
  - cbn [scan_cells]. unfold bind at 1.
    destruct (get_source cell st) as [st0 [[| | |t| |]|e]]; try done.
    destruct (String.eqb (strip t) "#%%RM_BELOW%%").
    { intros [= <- <-]. exists []. rewrite List.app_nil_r.
      split; [done | apply sublist_nil_l]. }
    unfold bind at 1.
    destruct (process_cell _ _ self cell st0) as [st1 [c|e]] eqn:Hp; [|done].
    apply process_cell_returns_cell in Hp as ->.
    unfold bind at 1.
    destruct (macroer (cfg self) cell st1) as [st2 [[c2|]|e]] eqn:Hm;
      [| |done].
    + apply Hmac in Hm as ->. intros H.
      destruct (IH _ _ H) as (kept & -> & Hsub).
      exists (cell :: kept). rewrite <- List.app_assoc.
      split; [done | by apply sublist_skip].
    + intros H. destruct (IH _ _ H) as (kept & -> & Hsub).
      exists kept. split; [done | by apply sublist_cons].
Qed.

Lemma scan_collects_sublist_witness :
  exists kept,
    [0; 1] = ([] ++ kept)%list /\ kept `sublist_of` [0; 1; 2; 3].
Proof.
  apply (scan_collects_sublist false no_inherited keep_all (self_of ∅)
           [0; 1; 2; 3] [] [0; 1]
           (document ["A"; "#$HIDE$B"; "#%%RM_BELOW%%"; "D"])
           (fst (scan_cells false no_inherited keep_all (self_of ∅)
                   [0; 1; 2; 3] []
                   (document ["A"; "#$HIDE$B"; "#%%RM_BELOW%%"; "D"])))).
  - intros c s s' c' H. unfold keep_all, ret in H. congruence.
  - vm_compute. reflexivity.
Defined.

(** ** Permissive mode *)

Lemma try_expand_permissive
    (inherited : string -> option (list string -> loc -> M PyVal))
    (self : Self) (macro : string) (cell : loc) (st st' : Store)
    (msg : string) :
  try_expand true inherited self macro cell st
  <> (st', Raise (UnrecognizedMacroException msg)).
Proof.
  unfold try_expand, catch.
  destruct (expand_macro inherited self macro cell st) as [st1 [v|e]];
    [done|].
  by destruct e.
Qed.

Lemma run_expansions_permissive
    (inherited : string -> option (list string -> loc -> M PyVal))
    (self : Self) (cell : loc) (groups : list string) (st st' : Store)
    (msg : string) :
  run_expansions true inherited self cell groups st
  <> (st', Raise (UnrecognizedMacroException msg)).
Proof.
  revert st; induction groups as [|g gs IH]; intros st; [done|].
  cbn [run_expansions]. unfold bind at 1.
  destruct (try_expand true inherited self g cell st) as [st1 [v|e]] eqn:Ht.
  - unfold bind at 1. unfold lift, add_expansion.
    destruct (truthy v); [destruct v|]; try done;
      unfold bind;
      destruct (run_expansions true inherited self cell gs st1)
        as [st2 [es|e]] eqn:Hr; try done;
      intros [= -> ->]; by eapply IH.
  - intros [= -> ->]. by eapply try_expand_permissive.
Qed.

(** X15. In permissive mode the dispatcher never raises the
    unrecognized-macro exception, whatever the cell holds and wherever
    the unknown name occurs, also behind [expand_macro(...)]. *)
Theorem permissive_never_unrecognized
    (inherited : string -> option (list string -> loc -> M PyVal))
    (self : Self) (cell : loc) (st st' : Store) (msg : string) :
  process_cell true inherited self cell st
  <> (st', Raise (UnrecognizedMacroException msg)).
Proof.
  unfold process_cell. unfold bind at 1.
  unfold get_source, bind, get_cell.
  destruct (heap st !! cell) as [v|]; [|done].
  destruct (source v) as [[| | |src| |]|]; try done.
  unfold ret at 1. rewrite expand_matches_spec. unfold bind at 1.
  destruct (run_expansions true inherited self cell _ st)
    as [st1 [es|e]] eqn:Hr.
  - unfold ret at 1. unfold set_source, bind, get_cell, put_cell, ret.
    by destruct (heap st1 !! cell).
  - intros [= -> ->]. by eapply run_expansions_permissive.
Qed.

Lemma permissive_never_unrecognized_witness :
  process_cell true no_inherited (self_of ∅) 0
    (document ["a#$expand_macro(NOPE)$b#$NOPE(1)$c"])
  <> (document ["a#$expand_macro(NOPE)$b#$NOPE(1)$c"],
      Raise (UnrecognizedMacroException
               "Don't know how to handle the macro with name: NOPE")).
Proof.
  exact (permissive_never_unrecognized no_inherited (self_of ∅) 0
           (document ["a#$expand_macro(NOPE)$b#$NOPE(1)$c"])
           (document ["a#$expand_macro(NOPE)$b#$NOPE(1)$c"])
           "Don't know how to handle the macro with name: NOPE").
Defined.

Example permissive_nested_unknown :
  process_cell true no_inherited (self_of ∅) 0
    (document ["a#$expand_macro(NOPE)$b#$NOPE(1)$c"])
  = (document ["abc"], Ok 0).
Proof. vm_compute. reflexivity. Qed.

(** ** A reference to [expand_macro] *)

(** X16. A reference [expand_macro(X)], where [X] has no parenthesis to
    open and no blank around it, expands exactly as the reference [X]
    does: same value or exception, same store. With a blank argument it
    is a [TypeError]. *)
Theorem expand_macro_reference
    (inherited : string -> option (list string -> loc -> M PyVal))
    (self : Self) (x : string) (cell : loc) (st : Store) :
  has_char "(" x = false ->
  (strip x = x -> x <> "" ->
   expand_macro inherited self ("expand_macro(" ++ x ++ ")") cell st
   = expand_macro inherited self x cell st)
  /\ (strip x = "" ->
      expand_macro inherited self ("expand_macro(" ++ x ++ ")") cell st
      = (st, Raise TypeError)).
Proof.
  intros Hx.
  assert (Hparse :
    parse_macro ("expand_macro(" ++ x ++ ")")
    = Ok ("expand_macro",
          if String.eqb (strip x) "" then [] else [strip x]))
    by (by apply (parse_macro_call "expand_macro" x)).
  split.
  - intros Hstrip Hne. unfold expand_macro at 1.
    unfold expand_macro_with at 1. unfold bind, lift. rewrite Hparse.
    rewrite Hstrip. apply String.eqb_neq in Hne. rewrite Hne. cbn [fst snd].
    change (getattr inherited self "expand_macro")
      with (Some (A_method Meth_expand_macro)).
    cbn [call_attr call_method]. unfold expand_macro.
    by rewrite expand_macro_inner_closed.
  - intros Hblank. unfold expand_macro, expand_macro_with, bind, lift.
    rewrite Hparse, Hblank. cbn [String.eqb fst snd].
    change (getattr inherited self "expand_macro")
      with (Some (A_method Meth_expand_macro)).
    done.
Qed.

Lemma expand_macro_reference_witness :
  expand_macro no_inherited (self_of ∅) ("expand_macro(" ++ "YOURTURN" ++ ")")
    0 (document ["x"])
  = expand_macro no_inherited (self_of ∅) "YOURTURN" 0 (document ["x"]).
Proof.
  apply (proj1 (expand_macro_reference no_inherited (self_of ∅) "YOURTURN" 0
                  (document ["x"]) eq_refl));
    [reflexivity | discriminate].
Defined.

(** ** The geocoder reads one file *)

Lemma index_Ok_lookup (x : string) (l : list string) (i : nat) :
  Geospatial.index x l = Ok i -> l !! i = Some x.
Proof.
  revert i; induction l as [|y r IH]; intros i; simpl; [done|].
  destruct (String.eqb_spec y x) as [->|_]; [by intros [= <-]|].
  destruct (Geospatial.index x r) as [j|e]; [|done].
  intros [= <-]. by apply IH.
Qed.

(** X17. [geocode] looks at no file but the shapefile numbered with the
    position of the address in [all_addresses]: two file systems that
    agree on that file give the same answer, and for an address outside
    the list no file is read at all. *)
Theorem geocode_reads_one_file
    (GeoDataFrame Series Point : Type)
    (read_file1 read_file2 : string -> Res GeoDataFrame)
    (geometry_y geometry_x : GeoDataFrame -> Res Series)
    (new_Point : Series -> Series -> Res Point) (address : string) :
  (forall i, Geospatial.all_addresses !! i = Some address ->
             read_file1 (Geospatial.shapefile i)
             = read_file2 (Geospatial.shapefile i)) ->
  Geospatial.geocode GeoDataFrame Series Point read_file1 geometry_y
    geometry_x new_Point address
  = Geospatial.geocode GeoDataFrame Series Point read_file2 geometry_y
      geometry_x new_Point address.
Proof.
  intros Hsame. unfold Geospatial.geocode, Geospatial.geocode_try.
  destruct (Geospatial.index address Geospatial.all_addresses) as [i|e]
    eqn:Hi; [|done].
  cbn [res_bind]. by rewrite (Hsame i (index_Ok_lookup _ _ _ Hi)).
Qed.

Lemma geocode_reads_one_file_witness :
  Geospatial.geocode unit Z (Z * Z)
    (fun path =>
       if String.eqb path (Geospatial.shapefile 2) then Ok tt
       else Raise (OtherError "no such file"))
    (fun _ => Ok 37%Z) (fun _ => Ok (-122)%Z) (fun lat lon => Ok (lat, lon))
    "1444 Shattuck Place Berkeley CA"
  = Geospatial.geocode unit Z (Z * Z) (fun _ => Ok tt)
      (fun _ => Ok 37%Z) (fun _ => Ok (-122)%Z) (fun lat lon => Ok (lat, lon))
      "1444 Shattuck Place Berkeley CA".
Proof.
  apply geocode_reads_one_file.
  intros [|[|[|[|[|i]]]]]; try discriminate. reflexivity.
Defined.
